(** * doing-jetstream: the Jetstream event processor (src/index.ts)

    A shallow embedding of the Durable Object [JetstreamProcessor], of the
    queue consumer and of [sendToWebhook], with the properties of the
    specification stated and settled against it.

    Conventions of the embedding.
    - A TypeScript [number] that holds a count or a microsecond timestamp is
      an integer [Z], standing for the double of that value.  The counters
      grow by [++] from 0 and stay where doubles are exact (|n| <= 2^53).
      The cursor is whatever [time_us] a frame carried, so the subtraction
      of the five-second buffer and the printing of its result are those
      of doubles: exact up to 2^53, rounded above ([double_round],
      [Number_toString]).  Only the reconnect delay is a genuine fraction;
      it is modelled over the real numbers.
    - [Record<string, number>] is a finite map [gmap string Z] over the own
      properties of the object.  A lookup in the source also sees the
      members of [Object.prototype] ([Object_prototype_names]); the map is
      the object for the collection names that are none of these, and the
      properties of the counters are stated for those names.
    - What the platform answers during a call (the clock, the queue, the
      network) is an explicit argument of the function that makes the call.
    - [console.log] / [console.error] append to a list of lines.
    - [processEvent] is a handler run to its end.  A handler suspended at
      [await send] while another frame is handled is the pair
      [processEvent_until_send], [processEvent_after_send]. *)

From Stdlib Require Import ZArith String List Lia Reals Lra.
From stdpp Require Import base option list gmap fin_maps strings pretty.

Local Open Scope string_scope.
Local Open Scope list_scope.
Local Open Scope Z_scope.

(** ** types.ts *)

Module Kind.
(** [kind: "commit" | "identity" | "account"] *)
Inductive t := commit | identity | account.

Definition eqb (a b : t) : bool :=
  match a, b with
  | commit, commit | identity, identity | account, account => true
  | _, _ => false
  end.
End Kind.

Module Operation.
(** [operation: "create" | "update" | "delete"] *)
Inductive t := create | update | delete.

Definition toString (o : t) : string :=
  match o with
  | create => "create"
  | update => "update"
  | delete => "delete"
  end.
End Operation.

(** [JetstreamEvent.commit]; [record?: any] is kept as its JSON text. *)
Record Commit := {
  rev : string;
  operation : Operation.t;
  collection : string;
  rkey : string;
  record : option string;
  cid : option string
}.

Module Identity.
Record t := { did : string; handle : string; seq : Z; time : string }.
End Identity.

Module Account.
Record t := { active : bool; did : string; seq : Z; time : string }.
End Account.

Record JetstreamEvent := {
  did : string;
  time_us : Z;
  kind : Kind.t;
  commit : option Commit;
  identity : option Identity.t;
  account : option Account.t
}.

Record StoredStats := {
  cursor : Z;
  eventCounts : gmap string Z;
  totalEvents : Z;
  totalReceived : Z;
  lastEventTime : string
}.

Record QueueMessage := {
  event : JetstreamEvent;
  queuedAt : string;
  retryCount : option Z
}.

(** ** JavaScript primitives used by the source *)

(** Truthiness of a string: every string but the empty one. *)
Definition truthy (s : string) : bool :=
  match s with
  | EmptyString => false
  | String _ _ => true
  end.

(** [event.commit?.collection]: [undefined] when [commit] is absent. *)
Definition commit_collection (e : JetstreamEvent) : option string :=
  collection <$> commit e.

(** The double nearest to an integer: the integer itself up to 2^53,
    above that the nearest multiple of the spacing of the doubles around
    it, a tie going to the even significand. *)
Definition double_round (z : Z) : Z :=
  let a := Z.abs z in
  if a <=? 2 ^ 53 then z
  else
    let e := Z.log2 a - 52 in
    let q := a / 2 ^ e in
    let r := a mod 2 ^ e in
    let half := 2 ^ (e - 1) in
    let q' := if (r <? half) || ((r =? half) && Z.even q) then q
              else q + 1 in
    Z.sgn z * (q' * 2 ^ e).

(** [a - b] on numbers: the double nearest to the difference. *)
Definition js_sub (a b : Z) : Z := double_round (a - b).

(** The number of decimal digits of a positive integer. *)
Definition decimal_length (a : Z) : Z :=
  Z.of_nat (String.length (pretty a)).

(** The digits [s] for which [s * 10^j] reads back as the double [a], if
    there are any: the multiple of [10^j] just below [a] or the one just
    above, the nearer to [a] when both do. *)
Definition digits_at (a j : Z) : option Z :=
  let pow := 10 ^ j in
  let lo := a / pow in
  let hi := lo + 1 in
  let ok_lo := double_round (lo * pow) =? a in
  let ok_hi := double_round (hi * pow) =? a in
  match ok_lo, ok_hi with
  | true, false => Some lo
  | false, true => Some hi
  | true, true =>
      let dlo := a - lo * pow in
      let dhi := hi * pow - a in
      if dlo <? dhi then Some lo
      else if dhi <? dlo then Some hi
      else if Z.even lo then Some lo else Some hi
  | false, false => None
  end.

(** The fewest digits that read back as [a]: the search starts with one
    digit ([j] zeros after it) and adds digits until some do. *)
Fixpoint shortest_from (fuel : nat) (a j : Z) : Z * Z :=
  match digits_at a j with
  | Some s => (s, j)
  | None =>
      match fuel with
      | O => (a, 0)
      | S fuel' => shortest_from fuel' a (j - 1)
      end
  end.

Fixpoint strip_zeros (fuel : nat) (s j : Z) : Z * Z :=
  match fuel with
  | O => (s, j)
  | S fuel' =>
      if (s mod 10 =? 0) && (0 <? s) then strip_zeros fuel' (s / 10) (j + 1)
      else (s, j)
  end.

Definition shortest_digits (a : Z) : Z * Z :=
  let n := decimal_length a in
  let '(s, j) := shortest_from (Z.to_nat n) a (n - 1) in
  strip_zeros (Z.to_nat n) s j.

Fixpoint zeros (n : nat) : string :=
  match n with
  | O => ""
  | S n' => "0" +:+ zeros n'
  end.

(** [Number.prototype.toString] on a positive integer-valued double: up
    to 2^53 its decimal numeral; above, the fewest digits that read back
    as the same double, followed by zeros up to 21 digits and in exponent
    notation beyond. *)
Definition Number_toString_abs (a : Z) : string :=
  if a <=? 2 ^ 53 then pretty a
  else
    let '(s, j) := shortest_digits a in
    let digits := pretty s in
    let n := Z.of_nat (String.length digits) + j in
    if n <=? 21 then digits +:+ zeros (Z.to_nat j)
    else
      match digits with
      | String d EmptyString => String d ("e+" +:+ pretty (n - 1))
      | String d rest =>
          String d ("." +:+ rest +:+ "e+" +:+ pretty (n - 1))
      | EmptyString => ""
      end.

(** [Number.prototype.toString] on an integer-valued double. *)
Definition Number_toString (n : Z) : string :=
  if n <? 0 then "-" +:+ Number_toString_abs (- n)
  else Number_toString_abs n.

(** [a % b] on integers: the sign follows the dividend. *)
Definition js_rem (a b : Z) : Z := Z.rem a b.

Inductive ConsoleLine :=
| console_log (msg : string)
| console_error (msg : string) (err : string).

(** ** class JetstreamProcessor: stats and event processing *)

(** The fields of the Durable Object that event processing touches, with
    the two platform objects it writes to: [ctx.storage] (the value under
    the key ["stats"]) and [env.JETSTREAM_QUEUE] (the messages the queue
    accepted, oldest first). *)
Record JetstreamProcessor := {
  stats : StoredStats;
  storage : option StoredStats;
  JETSTREAM_QUEUE : list QueueMessage;
  console : list ConsoleLine
}.

(** What the platform answers during one call of [processEvent]: the two
    readings of [new Date().toISOString()] and the outcome of
    [JETSTREAM_QUEUE.send] ([None]: accepted, [Some err]: it throws). *)
Record Host := {
  now_lastEventTime : string;
  now_queuedAt : string;
  send_throws : option string
}.

(** The initial value of the field [stats]. *)
Definition initial_stats (now : string) : StoredStats :=
  {| cursor := 0; eventCounts := ∅; totalEvents := 0; totalReceived := 0;
     lastEventTime := now |}.

Definition new_processor (now : string) : JetstreamProcessor :=
  {| stats := initial_stats now; storage := None;
     JETSTREAM_QUEUE := []; console := [] |}.

Definition set_cursor (c : Z) (s : StoredStats) : StoredStats :=
  {| cursor := c; eventCounts := eventCounts s; totalEvents := totalEvents s;
     totalReceived := totalReceived s; lastEventTime := lastEventTime s |}.

Definition incr_totalReceived (s : StoredStats) : StoredStats :=
  {| cursor := cursor s; eventCounts := eventCounts s;
     totalEvents := totalEvents s; totalReceived := totalReceived s + 1;
     lastEventTime := lastEventTime s |}.

Definition incr_totalEvents (s : StoredStats) : StoredStats :=
  {| cursor := cursor s; eventCounts := eventCounts s;
     totalEvents := totalEvents s + 1; totalReceived := totalReceived s;
     lastEventTime := lastEventTime s |}.

Definition set_lastEventTime (t : string) (s : StoredStats) : StoredStats :=
  {| cursor := cursor s; eventCounts := eventCounts s;
     totalEvents := totalEvents s; totalReceived := totalReceived s;
     lastEventTime := t |}.

(** [eventCounts[c] = (eventCounts[c] || 0) + 1], for a name [c] that
    [Object.prototype] does not have ([Object_prototype_names]). *)
Definition incr_eventCount (c : string) (s : StoredStats) : StoredStats :=
  {| cursor := cursor s;
     eventCounts := <[c := default 0 (eventCounts s !! c) + 1]> (eventCounts s);
     totalEvents := totalEvents s; totalReceived := totalReceived s;
     lastEventTime := lastEventTime s |}.

(** Lines 140-145: the per-collection counter, guarded by the truthiness
    of [event.commit?.collection]; the stats and the line it logs. *)
Definition track_collection (e : JetstreamEvent) (s : StoredStats)
  : StoredStats * list ConsoleLine :=
  match commit e with
  | Some c =>
      if truthy (collection c) then
        (incr_eventCount (collection c) s,
         [console_log ("Processing " +:+ Operation.toString (operation c)
                       +:+ " event for collection: " +:+ collection c)])
      else (s, [])
  | None => (s, [])
  end.

(** Lines 147-162: the [try { send } catch { console.error }] block; the
    queue after it and the line it logs. *)
Definition enqueue (h : Host) (e : JetstreamEvent) (q : list QueueMessage)
  : list QueueMessage * list ConsoleLine :=
  let queueMessage :=
    {| event := e; queuedAt := now_queuedAt h; retryCount := Some 0 |} in
  match send_throws h with
  | None =>
      (q ++ [queueMessage],
       [console_log ("Event queued successfully: "
                     +:+ Number_toString (time_us e))])
  | Some err => (q, [console_error "Error sending to queue:" err])
  end.

(** [processEvent] (lines 126-168). *)
Definition processEvent (h : Host) (e : JetstreamEvent)
    (p : JetstreamProcessor) : JetstreamProcessor :=
  let s := set_cursor (time_us e) (stats p) in
  let s := incr_totalReceived s in
  if negb (Kind.eqb (kind e) Kind.commit) then
    {| stats := s; storage := storage p;
       JETSTREAM_QUEUE := JETSTREAM_QUEUE p; console := console p |}
  else
    let s := incr_totalEvents s in
    let s := set_lastEventTime (now_lastEventTime h) s in
    let '(s, log1) := track_collection e s in
    let '(q, log2) := enqueue h e (JETSTREAM_QUEUE p) in
    {| stats := s;
       storage := if js_rem (totalEvents s) 100 =? 0 then Some s
                  else storage p;
       JETSTREAM_QUEUE := q;
       console := console p ++ log1 ++ log2 |}.

(** The message listener applied to a run of decoded messages, in arrival
    order; each comes with the platform's answers for its call. *)
Definition processEvents (inputs : list (Host * JetstreamEvent))
    (p : JetstreamProcessor) : JetstreamProcessor :=
  fold_left (fun p he => processEvent (fst he) (snd he) p) inputs p.

(** [resetStats] (lines 182-191). *)
Definition resetStats (now : string) (p : JetstreamProcessor)
  : JetstreamProcessor :=
  let s := {| cursor := 0; eventCounts := ∅; totalEvents := 0;
              totalReceived := 0; lastEventTime := now |} in
  {| stats := s; storage := Some s;
     JETSTREAM_QUEUE := JETSTREAM_QUEUE p; console := console p |}.

(** [getStats] (lines 173-177): flush, then return the record. *)
Definition getStats (p : JetstreamProcessor)
  : JetstreamProcessor * StoredStats :=
  ({| stats := stats p; storage := Some (stats p);
      JETSTREAM_QUEUE := JETSTREAM_QUEUE p; console := console p |},
   stats p).

(** ** connectToJetstream: the subscription URL *)

(** [URLSearchParams]: the list of name/value pairs, in order. *)
Module URLSearchParams.
Definition t := list (string * string).

Definition append (name value : string) (ps : t) : t :=
  ps ++ [(name, value)].

Definition get (name : string) (ps : t) : option string :=
  snd <$> List.find (fun kv => String.eqb (fst kv) name) ps.

Definition has (name : string) (ps : t) : bool :=
  existsb (fun kv => String.eqb (fst kv) name) ps.

Definition getAll (name : string) (ps : t) : list string :=
  List.map snd (List.filter (fun kv => String.eqb (fst kv) name) ps).

(** [set]: the first pair of that name takes the value and the others of
    that name go; with no such pair, the pair is appended. *)
Fixpoint set (name value : string) (ps : t) : t :=
  match ps with
  | [] => [(name, value)]
  | kv :: ps' =>
      if String.eqb (fst kv) name then
        (name, value)
          :: List.filter (fun kv => negb (String.eqb (fst kv) name)) ps'
      else kv :: set name value ps'
  end.
End URLSearchParams.

Record URL := {
  href_base : string;
  searchParams : URLSearchParams.t
}.

Definition collections : list string := ["work.doing.*"; "blue.2048.*"].

(** Lines 54-67: the URL that [connectToJetstream] opens, from the stats
    held at that moment. *)
Definition subscribe_url (s : StoredStats) : URL :=
  let url := {| href_base := "wss://jetstream1.us-west.bsky.network/subscribe";
                searchParams := [] |} in
  let url :=
    fold_left
      (fun url collection =>
         {| href_base := href_base url;
            searchParams := URLSearchParams.append "wantedCollections"
                              collection (searchParams url) |})
      collections url in
  if 0 <? cursor s then
    let cursorWithBuffer := js_sub (cursor s) (5 * 1000 * 1000) in
    {| href_base := href_base url;
       searchParams := URLSearchParams.set "cursor"
                         (Number_toString cursorWithBuffer)
                         (searchParams url) |}
  else url.

(** ** scheduleReconnect: the delay *)

Definition baseDelay : R := 1000%R.
Definition maxDelay : R := 30000%R.

(** Line 117, with [random] the value [Math.random()] returned. *)
Definition reconnect_delay (random : R) : R :=
  Rmin (baseDelay * Rpower 2 random) maxDelay.

(** [scheduleReconnect] (lines 111-124): nothing when a timeout is pending,
    otherwise the delay of the timeout it sets. *)
Definition scheduleReconnect (reconnectTimeout_pending : bool) (random : R)
  : option R :=
  if reconnectTimeout_pending then None else Some (reconnect_delay random).

(** ** sendToWebhook and the queue consumer *)

Record Request := {
  url : string;
  method : string;
  headers : list (string * string);
  body : string
}.

(** What [fetch] answers: a response with its status line, or a rejection
    (a transport error). *)
Inductive FetchResult :=
| Response (status : Z) (statusText : string)
| fetch_rejects (error : string).

(** [response.ok]: the status is in the range 200-299. *)
Definition Response_ok (status : Z) : bool :=
  (200 <=? status) && (status <=? 299).

Definition header_get (name : string) (hs : list (string * string))
  : option string :=
  snd <$> List.find (fun kv => String.eqb (fst kv) name) hs.

(** Modelled from the spec: the configuration of a deployment, the part of
    the type [Env] that wrangler generates (not among the sources) from the
    variables of .dev.vars.example and setup-secrets.sh. *)
Record Env := {
  WEBHOOK_URL : string;
  WEBHOOK_BEARER_TOKEN : option string;
  JETSTREAM_COLLECTIONS : string
}.

(** A message of a batch: its body and what the handler called on it. *)
Module Message.
Record t := { body : QueueMessage; acked : bool; retried : bool }.

Definition delivered (b : QueueMessage) : t :=
  {| body := b; acked := false; retried := false |}.
Definition ack (m : t) : t :=
  {| body := body m; acked := true; retried := retried m |}.
Definition retry (m : t) : t :=
  {| body := body m; acked := acked m; retried := true |}.
End Message.

Section Delivery.
(** [JSON.stringify] on an event. *)
Variable JSON_stringify : JetstreamEvent -> string.

Definition webhookUrl : string :=
  "https://doingtunnel.doing.work/api/webhooks/jetstream-event".

(** Lines 418-427: the request [sendToWebhook] hands to [fetch]. *)
Definition webhook_request (event : JetstreamEvent) : Request :=
  {| url := webhookUrl;
     method := "POST";
     headers := [("Content-Type", "application/json");
                 ("User-Agent", "Jetstream-Unified/1.0")];
     body := JSON_stringify event |}.

(** [sendToWebhook] (lines 417-433): [inl tt] when the promise resolves,
    [inr err] when it rejects with [err]. *)
Definition sendToWebhook (fetch : Request -> FetchResult)
    (event : JetstreamEvent) : unit + string :=
  match fetch (webhook_request event) with
  | fetch_rejects err => inr err
  | Response status statusText =>
      if negb (Response_ok status) then
        inr ("Webhook request failed: " +:+ Number_toString status
             +:+ " " +:+ statusText)
      else inl tt
  end.

(** Lines 393-410: the handler of one message. *)
Definition deliver (fetch : Request -> FetchResult) (message : Message.t)
  : Message.t * list ConsoleLine :=
  let queueMessage := Message.body message in
  match sendToWebhook fetch (event queueMessage) with
  | inl _ =>
      (Message.ack message,
       [console_log
          ("Successfully processed event "
           +:+ Number_toString (time_us (event queueMessage))
           +:+ " for collection: "
           +:+ match commit_collection (event queueMessage) with
               | Some c => if truthy c then c else "non-commit"
               | None => "non-commit"
               end)])
  | inr err =>
      (Message.retry message,
       [console_error "Failed to process queue message:" err])
  end.

(** [queue] (lines 389-414): every message of the batch goes through its
    own handler; [fetch i] is the network as the handler of message [i]
    meets it. *)
Definition queue (fetch : nat -> Request -> FetchResult)
    (batch : list Message.t) : list Message.t :=
  imap (fun i message => fst (deliver (fetch i) message)) batch.

(** The request the documentation describes (README, "Webhook Payload":
    [POST {WEBHOOK_URL}], [Authorization: Bearer {WEBHOOK_BEARER_TOKEN}]
    when a token is set). *)
Definition documented_request (env : Env) (event : JetstreamEvent)
  : Request :=
  {| url := WEBHOOK_URL env;
     method := "POST";
     headers :=
       [("Content-Type", "application/json");
        ("User-Agent", "Jetstream-Unified/1.0")]
       ++ match WEBHOOK_BEARER_TOKEN env with
          | Some token => [("Authorization", "Bearer " +:+ token)]
          | None => []
          end;
     body := JSON_stringify event |}.
End Delivery.

(** ** What the specification counts *)

(** The largest [time_us] among a first event and those after it. *)
Fixpoint max_time_us (e : JetstreamEvent) (es : list JetstreamEvent) : Z :=
  match es with
  | [] => time_us e
  | e' :: es' => Z.max (time_us e) (max_time_us e' es')
  end.

(** [time_us] never goes down along the sequence. *)
Fixpoint non_decreasing (e : JetstreamEvent) (es : list JetstreamEvent)
  : bool :=
  match es with
  | [] => true
  | e' :: es' => (time_us e <=? time_us e') && non_decreasing e' es'
  end.

Definition is_commit (e : JetstreamEvent) : bool :=
  Kind.eqb (kind e) Kind.commit.

(** The number of events with [kind = commit]. *)
Definition count_commits (es : list JetstreamEvent) : Z :=
  Z.of_nat (length (List.filter is_commit es)).

(** A commit event whose [commit.collection] is [c]. *)
Definition commit_of (c : string) (e : JetstreamEvent) : bool :=
  is_commit e &&
  match commit_collection e with
  | Some c' => String.eqb c' c
  | None => false
  end.

(** The number of commit events whose [commit.collection] is [c]. *)
Definition count_collection (c : string) (es : list JetstreamEvent) : Z :=
  Z.of_nat (length (List.filter (commit_of c) es)).

(** The event is no commit, or it carries a collection. *)
Definition carries_collection (e : JetstreamEvent) : bool :=
  negb (is_commit e) ||
  match commit_collection e with
  | Some _ => true
  | None => false
  end.

(** The event is no commit, or it carries a collection that is not the
    empty string. *)
Definition carries_named_collection (e : JetstreamEvent) : bool :=
  negb (is_commit e) ||
  match commit_collection e with
  | Some c => truthy c
  | None => false
  end.

(** The property names every object inherits from [Object.prototype]: a
    lookup [eventCounts[c]] with one of them finds the inherited member
    where the object has no property of its own. *)
Definition Object_prototype_names : list string :=
  ["constructor"; "__defineGetter__"; "__defineSetter__"; "hasOwnProperty";
   "__lookupGetter__"; "__lookupSetter__"; "isPrototypeOf";
   "propertyIsEnumerable"; "toString"; "valueOf"; "__proto__";
   "toLocaleString"].

Definition inherited (c : string) : bool :=
  existsb (String.eqb c) Object_prototype_names.

(** The event is no commit, or its collection, if it has one, is not the
    name of a member of [Object.prototype]. *)
Definition own_collection (e : JetstreamEvent) : bool :=
  negb (is_commit e) ||
  match commit_collection e with
  | Some c => negb (inherited c)
  | None => true
  end.

(** [eventCounts[c]], an absent entry read as 0. *)
Definition count_of (c : string) (s : StoredStats) : Z :=
  default 0 (eventCounts s !! c).

(** The sum of the values of a map of counters. *)
Definition sum_values (m : gmap string Z) : Z :=
  map_fold (fun _ n acc => n + acc) 0 m.

(** The sum of the values of [eventCounts]. *)
Definition sum_eventCounts (s : StoredStats) : Z :=
  sum_values (eventCounts s).

(** The events of a run of inputs. *)
Definition events_of (inputs : list (Host * JetstreamEvent))
  : list JetstreamEvent := List.map snd inputs.

(** The stats after one call, whatever the queue answered. *)
Definition stats_after (now : string) (e : JetstreamEvent) (s : StoredStats)
  : StoredStats :=
  let s := incr_totalReceived (set_cursor (time_us e) s) in
  if is_commit e then
    fst (track_collection e (set_lastEventTime now (incr_totalEvents s)))
  else s.

(** ** Sample inputs *)

Definition host_ok : Host :=
  {| now_lastEventTime := "2025-06-01T00:00:00.000Z";
     now_queuedAt := "2025-06-01T00:00:00.001Z";
     send_throws := None |}.


Definition commit_event (t : Z) (c : string) : JetstreamEvent :=
  {| did := "did:plc:alice"; time_us := t; kind := Kind.commit;
     commit := Some {| rev := "3l3qo2vutsw2b";
                       operation := Operation.create;
                       collection := c; rkey := "3l3qo2vuowo2b";
                       record := None; cid := None |};
     identity := None; account := None |}.

Definition identity_event (t : Z) : JetstreamEvent :=
  {| did := "did:plc:alice"; time_us := t; kind := Kind.identity;
     commit := None;
     identity := Some {| Identity.did := "did:plc:alice";
                         Identity.handle := "alice.test";
                         Identity.seq := 1;
                         Identity.time := "2025-06-01T00:00:00.000Z" |};
     account := None |}.

Definition account_event (t : Z) : JetstreamEvent :=
  {| did := "did:plc:alice"; time_us := t; kind := Kind.account;
     commit := None; identity := None;
     account := Some {| Account.active := true;
                        Account.did := "did:plc:alice";
                        Account.seq := 2;
                        Account.time := "2025-06-01T00:00:00.000Z" |} |}.

Definition epoch : string := "1970-01-01T00:00:00.000Z".

(** The scenario of the specification: an account event, a commit on
    app.bsky.feed.post at 100, an identity event at 150. *)
Definition scenario : list (Host * JetstreamEvent) :=
  [(host_ok, account_event 50);
   (host_ok, commit_event 100 "app.bsky.feed.post");
   (host_ok, identity_event 150)].

(** A reconnect replay: the feed resumes five seconds before the cursor. *)
Definition replay : list (Host * JetstreamEvent) :=
  [(host_ok, commit_event 9000000 "work.doing.status");
   (host_ok, commit_event 4000000 "work.doing.status")].

(** ** Auxiliary definitions *)

(** A commit event that [processEvent] counts under some collection. *)
Definition counted (e : JetstreamEvent) : bool :=
  is_commit e &&
  match commit_collection e with
  | Some c => truthy c
  | None => false
  end.


(** The webhook answered the request with a 2xx status. *)
Definition answered_2xx (r : FetchResult) : bool :=
  match r with
  | Response status _ => Response_ok status
  | fetch_rejects _ => false
  end.

(** ** More sample inputs *)

(** A commit event whose collection is the empty string. *)
Definition unnamed_commit : list (Host * JetstreamEvent) :=
  [(host_ok, commit_event 100 "")].

Definition stats_with_cursor (c : Z) : StoredStats :=
  {| cursor := c; eventCounts := ∅; totalEvents := 0; totalReceived := 0;
     lastEventTime := epoch |}.

Definition JSON_stub (e : JetstreamEvent) : string :=
  "{" +:+ Number_toString (time_us e) +:+ "}".

(** A batch of two: the webhook answers 500 to the first message and 200
    to the second. *)
Definition fetch_500_then_200 (i : nat) (_ : Request) : FetchResult :=
  match i with
  | O => Response 500 "Internal Server Error"
  | _ => Response 200 "OK"
  end.

Definition two_messages : list QueueMessage :=
  [ {| event := commit_event 100 "work.doing.status";
       queuedAt := epoch; retryCount := Some 0 |};
    {| event := commit_event 200 "work.doing.status";
       queuedAt := epoch; retryCount := Some 0 |} ].

Definition deployment : Env :=
  {| WEBHOOK_URL := "https://example.com/api/webhooks/jetstream-event";
     WEBHOOK_BEARER_TOKEN := Some "your-bearer-token-here";
     JETSTREAM_COLLECTIONS := "blue.2048.*,app.bsky.feed.post" |}.

(** ** The rest of the Durable Object: restart, message listener *)

(** The constructor with [initializeProcessor] (lines 36-46), on the
    platform objects that outlive an instance: the stats are those of the
    store when it holds a record, the zero record otherwise. *)
Definition initializeProcessor (now : string)
    (stored : option StoredStats) (q : list QueueMessage)
  : JetstreamProcessor :=
  {| stats := match stored with
              | Some storedStats => storedStats
              | None => initial_stats now
              end;
     storage := stored;
     JETSTREAM_QUEUE := q;
     console := [] |}.

(** The instance is lost and a fresh one is created over the same store
    and queue. *)
Definition restart (now : string) (p : JetstreamProcessor)
  : JetstreamProcessor :=
  initializeProcessor now (storage p) (JETSTREAM_QUEUE p).

(** What [JSON.parse] makes of a frame: it throws, or it returns [null],
    or it returns an event.  (The listener casts the value without a
    check; a frame that parses to some other value that is no event has
    no [JetstreamEvent] to stand for it and is left out.) *)
Inductive Parsed :=
| parse_throws (err : string)
| parsed_null
| parsed_event (e : JetstreamEvent).

(** The listener's [catch] (line 89). *)
Definition log_processing_error (err : string) (p : JetstreamProcessor)
  : JetstreamProcessor :=
  {| stats := stats p; storage := storage p;
     JETSTREAM_QUEUE := JETSTREAM_QUEUE p;
     console := console p
                ++ [console_error "Error processing Jetstream event:" err] |}.

(** The message listener (lines 82-91).  On [null], [processEvent] throws
    when it reads [event.time_us], before it has changed anything, and the
    listener catches that error like one of [JSON.parse]. *)
Definition on_message (h : Host) (data : Parsed)
    (p : JetstreamProcessor) : JetstreamProcessor :=
  match data with
  | parsed_event jetstreamEvent => processEvent h jetstreamEvent p
  | parsed_null =>
      log_processing_error
        "TypeError: Cannot read properties of null (reading 'time_us')" p
  | parse_throws err => log_processing_error err p
  end.

Definition on_messages (frames : list (Host * Parsed))
    (p : JetstreamProcessor) : JetstreamProcessor :=
  fold_left (fun p hd => on_message (fst hd) (snd hd) p) frames p.

(** The frames that are events, with the platform answers of their
    calls. *)
Definition decoded (frames : list (Host * Parsed))
  : list (Host * JetstreamEvent) :=
  omap (fun hd => match snd hd with
                  | parsed_event e => Some (fst hd, e)
                  | _ => None
                  end) frames.

(** A frame that is no event. *)
Definition undecodable (hd : Host * Parsed) : bool :=
  match snd hd with
  | parsed_event _ => false
  | _ => true
  end.

(** A line logged by the listener's [catch]. *)
Definition is_processing_error (l : ConsoleLine) : bool :=
  match l with
  | console_error msg _ => String.eqb msg "Error processing Jetstream event:"
  | console_log _ => false
  end.

(** [processEvent] up to its first [await] (lines 126-155): the stats are
    updated, the collection is logged and [send] is called; for an event
    that is no commit this is the whole call. *)
Definition processEvent_until_send (h : Host) (e : JetstreamEvent)
    (p : JetstreamProcessor) : JetstreamProcessor :=
  let s := set_cursor (time_us e) (stats p) in
  let s := incr_totalReceived s in
  if negb (Kind.eqb (kind e) Kind.commit) then
    {| stats := s; storage := storage p;
       JETSTREAM_QUEUE := JETSTREAM_QUEUE p; console := console p |}
  else
    let s := incr_totalEvents s in
    let s := set_lastEventTime (now_lastEventTime h) s in
    let '(s, log1) := track_collection e s in
    {| stats := s; storage := storage p;
       JETSTREAM_QUEUE := fst (enqueue h e (JETSTREAM_QUEUE p));
       console := console p ++ log1 |}.

(** [processEvent] from the moment the [send] of a commit event settles
    (lines 157-167): the outcome is logged, and the test of
    [totalEvents % 100] reads the stats as they are by then. *)
Definition processEvent_after_send (h : Host) (e : JetstreamEvent)
    (p : JetstreamProcessor) : JetstreamProcessor :=
  {| stats := stats p;
     storage := if js_rem (totalEvents (stats p)) 100 =? 0
                then Some (stats p) else storage p;
     JETSTREAM_QUEUE := JETSTREAM_QUEUE p;
     console := console p ++ snd (enqueue h e (JETSTREAM_QUEUE p)) |}.

(** The message [processEvent] sends to the queue for an event. *)
Definition queued (he : Host * JetstreamEvent) : QueueMessage :=
  {| event := snd he; queuedAt := now_queuedAt (fst he);
     retryCount := Some 0 |}.

(** A commit event whose [send] the queue accepted. *)
Definition accepted_commit (he : Host * JetstreamEvent) : bool :=
  is_commit (snd he) &&
  match send_throws (fst he) with
  | None => true
  | Some _ => false
  end.

(** A commit event whose [send] threw. *)
Definition rejected_commit (he : Host * JetstreamEvent) : bool :=
  is_commit (snd he) &&
  match send_throws (fst he) with
  | None => false
  | Some _ => true
  end.

(** A line logged by the [catch] of the enqueue. *)
Definition is_send_error (l : ConsoleLine) : bool :=
  match l with
  | console_error msg _ => String.eqb msg "Error sending to queue:"
  | console_log _ => false
  end.

(** ** The connection: websocket handle, reconnect timer, handlers *)

Module ReadyState.
Inductive t := CONNECTING | OPEN | CLOSING | CLOSED.

Definition eqb (a b : t) : bool :=
  match a, b with
  | CONNECTING, CONNECTING | OPEN, OPEN
  | CLOSING, CLOSING | CLOSED, CLOSED => true
  | _, _ => false
  end.

(** The numeric value of the constant. *)
Definition toNumber (a : t) : Z :=
  match a with
  | CONNECTING => 0
  | OPEN => 1
  | CLOSING => 2
  | CLOSED => 3
  end.
End ReadyState.

(** A [WebSocket] object: the URL it was created with and its state, which
    the platform maintains. *)
Record WebSocket := {
  ws_url : URL;
  readyState : ReadyState.t
}.

(** [ws.close()]: an open or connecting socket starts closing. *)
Definition WebSocket_close (ws : WebSocket) : WebSocket :=
  match readyState ws with
  | ReadyState.CLOSING | ReadyState.CLOSED => ws
  | _ => {| ws_url := ws_url ws; readyState := ReadyState.CLOSING |}
  end.

Definition WebSocket_set (st : ReadyState.t) (ws : WebSocket) : WebSocket :=
  {| ws_url := ws_url ws; readyState := st |}.

Module Connection.
(** The fields [websocket] and [reconnectTimeout] of the Durable Object,
    with the sockets created so far; a handle is the position of its
    socket among them.  [reconnectTimeout] holds the delay of the pending
    timer.  The lines the connection logs are not modelled (one of them
    prints the fractional delay). *)
Record t := {
  websocket : option nat;
  reconnectTimeout : option R;
  sockets : list WebSocket
}.

Definition initial : t :=
  {| websocket := None; reconnectTimeout := None; sockets := [] |}.

(** Truthiness of [this.reconnectTimeout]. *)
Definition pending (c : t) : bool :=
  match reconnectTimeout c with
  | Some _ => true
  | None => false
  end.

(** [scheduleReconnect] on the object. *)
Definition scheduleReconnect (random : R) (c : t) : t :=
  match scheduleReconnect (pending c) random with
  | None => c
  | Some delay =>
      {| websocket := websocket c; reconnectTimeout := Some delay;
         sockets := sockets c |}
  end.

(** [clearTimeout(this.reconnectTimeout); this.reconnectTimeout = null]
    under [if (this.reconnectTimeout)]. *)
Definition clear_reconnectTimeout (c : t) : t :=
  if pending c then
    {| websocket := websocket c; reconnectTimeout := None;
       sockets := sockets c |}
  else c.

Definition set_websocket (w : option nat) (c : t) : t :=
  {| websocket := w; reconnectTimeout := reconnectTimeout c;
     sockets := sockets c |}.

(** The platform moves socket [i] to the state [st]. *)
Definition set_readyState (i : nat) (st : ReadyState.t) (c : t) : t :=
  {| websocket := websocket c; reconnectTimeout := reconnectTimeout c;
     sockets := alter (WebSocket_set st) i (sockets c) |}.

(** [connectToJetstream] (lines 52-109) from the stats [s]; [throws] says
    whether [new WebSocket] throws, which the [catch] answers with
    [scheduleReconnect]. *)
Definition connectToJetstream (throws : bool) (random : R)
    (s : StoredStats) (c : t) : t :=
  if throws then scheduleReconnect random c
  else
    {| websocket := Some (length (sockets c));
       reconnectTimeout := reconnectTimeout c;
       sockets := sockets c
                  ++ [{| ws_url := subscribe_url s;
                         readyState := ReadyState.CONNECTING |}] |}.

(** The "open" event of socket [i] (lines 73-80). *)
Definition on_open (i : nat) (c : t) : t :=
  clear_reconnectTimeout (set_readyState i ReadyState.OPEN c).

(** The "close" event of socket [i] (lines 93-97). *)
Definition on_close (i : nat) (random : R) (c : t) : t :=
  scheduleReconnect random
    (set_websocket None (set_readyState i ReadyState.CLOSED c)).

(** The "error" event of socket [i] (lines 99-103). *)
Definition on_error (i : nat) (random : R) (c : t) : t :=
  scheduleReconnect random (set_websocket None c).

(** The callback of the reconnect timer (lines 120-123); it runs only
    while its timer is pending. *)
Definition on_timer (throws : bool) (random : R) (s : StoredStats) (c : t)
  : t :=
  if pending c then
    connectToJetstream throws random s
      {| websocket := websocket c; reconnectTimeout := None;
         sockets := sockets c |}
  else c.

(** [forceReconnect] (lines 206-215). *)
Definition forceReconnect (throws : bool) (random : R) (s : StoredStats)
    (c : t) : t :=
  let c :=
    match websocket c with
    | Some i =>
        {| websocket := websocket c; reconnectTimeout := reconnectTimeout c;
           sockets := alter WebSocket_close i (sockets c) |}
    | None => c
    end in
  let c := clear_reconnectTimeout c in
  connectToJetstream throws random s c.

(** [this.websocket?.readyState] *)
Definition handle_readyState (c : t) : option ReadyState.t :=
  i ← websocket c; readyState <$> sockets c !! i.

(** [getConnectionStatus] (lines 196-201): [connected] and [readyState]. *)
Definition getConnectionStatus (c : t) : bool * option Z :=
  (match handle_readyState c with
   | Some st => ReadyState.eqb st ReadyState.OPEN
   | None => false
   end,
   ReadyState.toNumber <$> handle_readyState c).

(** The sockets that are connecting or open. *)
Definition live (c : t) : list WebSocket :=
  List.filter
    (fun ws => match readyState ws with
               | ReadyState.CONNECTING | ReadyState.OPEN => true
               | _ => false
               end)
    (sockets c).
End Connection.

(** ** The whole object and what reaches it *)

Record DurableObject := {
  processor : JetstreamProcessor;
  connection : Connection.t
}.

(** What reaches the object: the events of a socket, the reconnect timer,
    and the calls of the worker, each with the platform's answers.
    [ws_message] is a frame whose listener runs to its end before anything
    else reaches the object.  The listener of a commit event can also be
    suspended at [await send] while other inputs are handled:
    [ws_message_until_send] is its run up to there and [send_settles] its
    resumption. *)
Inductive Input :=
| ws_open (i : nat)
| ws_message (i : nat) (h : Host) (data : Parsed)
| ws_close (i : nat) (random : R)
| ws_error (i : nat) (random : R)
| timer_fires (throws : bool) (random : R)
| call_getStats
| call_resetStats (now : string)
| call_forceReconnect (throws : bool) (random : R)
| ws_message_until_send (i : nat) (h : Host) (e : JetstreamEvent)
| send_settles (h : Host) (e : JetstreamEvent).

Definition step (d : DurableObject) (x : Input) : DurableObject :=
  let p := processor d in
  let c := connection d in
  match x with
  | ws_open i =>
      {| processor := p; connection := Connection.on_open i c |}
  | ws_message _ h data =>
      {| processor := on_message h data p; connection := c |}
  | ws_close i random =>
      {| processor := p; connection := Connection.on_close i random c |}
  | ws_error i random =>
      {| processor := p; connection := Connection.on_error i random c |}
  | timer_fires throws random =>
      {| processor := p;
         connection := Connection.on_timer throws random (stats p) c |}
  | call_getStats =>
      {| processor := fst (getStats p); connection := c |}
  | call_resetStats now =>
      {| processor := resetStats now p; connection := c |}
  | call_forceReconnect throws random =>
      {| processor := p;
         connection := Connection.forceReconnect throws random (stats p) c |}
  | ws_message_until_send _ h e =>
      {| processor := processEvent_until_send h e p; connection := c |}
  | send_settles h e =>
      {| processor := processEvent_after_send h e p; connection := c |}
  end.

(** An input whose handler is not suspended part-way. *)
Definition handled_in_turn (x : Input) : bool :=
  match x with
  | ws_message_until_send _ _ _ | send_settles _ _ => false
  | _ => true
  end.

Definition run (inputs : list Input) (d : DurableObject) : DurableObject :=
  fold_left step inputs d.

(** A fresh instance after [initializeProcessor] ran: the stats loaded and
    the first connection attempted. *)
Definition start (now : string) (throws : bool) (random : R)
    (stored : option StoredStats) (q : list QueueMessage) : DurableObject :=
  let p := initializeProcessor now stored q in
  {| processor := p;
     connection := Connection.connectToJetstream throws random (stats p)
                     Connection.initial |}.

(** The random draw of an input, if it takes one, is in [0, 1). *)
Definition unit_draw (x : Input) : Prop :=
  match x with
  | ws_close _ r | ws_error _ r | timer_fires _ r
  | call_forceReconnect _ r => (0 <= r < 1)%R
  | _ => True
  end.

(** ** The worker's fetch handler: the routes *)

Module Router.
(** What the handler reads of the request: [url.pathname] and
    [request.method]. *)
Record Request := { pathname : string; method : string }.

(** The value a response serialises, before [JSON.stringify] or the HTML
    template is applied to it. *)
Inductive Body :=
| stats_json (s : StoredStats)
| stats_html (s : StoredStats)
| status_json (connected : bool) (readyState : option Z)
| message_json (message : string)
| health_json (timestamp : string)
| info_json.

(** [new Response(body, { headers })]: the status is 200. *)
Record Response := { status : Z; contentType : string; body : Body }.

(** The platform's answers during one request. *)
Record Answers := { now : string; throws : bool; random : R }.

Definition json (b : Body) : Response :=
  {| status := 200; contentType := "application/json"; body := b |}.

Definition html (b : Body) : Response :=
  {| status := 200; contentType := "text/html"; body := b |}.

(** [fetch] (lines 227-386), on the object named "main". *)
Definition fetch (a : Answers) (request : Request) (d : DurableObject)
  : DurableObject * Response :=
  if String.eqb (pathname request) "/stats" then
    (step d call_getStats, json (stats_json (stats (processor d))))
  else if String.eqb (pathname request) "/stats/html" then
    (step d call_getStats, html (stats_html (stats (processor d))))
  else if String.eqb (pathname request) "/status" then
    let '(connected, readyState) :=
      Connection.getConnectionStatus (connection d) in
    (d, json (status_json connected readyState))
  else if String.eqb (pathname request) "/reset"
          && String.eqb (method request) "POST" then
    (step d (call_resetStats (now a)),
     json (message_json "Stats reset successfully"))
  else if String.eqb (pathname request) "/reconnect"
          && String.eqb (method request) "POST" then
    (step d (call_forceReconnect (throws a) (random a)),
     json (message_json "Reconnection initiated"))
  else if String.eqb (pathname request) "/health" then
    (d, json (health_json (now a)))
  else (d, json info_json).
End Router.

(** ** What the store holds *)

(** The [totalEvents] of the record under the key "stats", 0 when nothing
    is stored. *)
Definition stored_totalEvents (p : JetstreamProcessor) : Z :=
  match storage p with
  | Some s => totalEvents s
  | None => 0
  end.

(** The store is not behind the last multiple of 100 that [totalEvents]
    reached, and not ahead of [totalEvents]. *)
Definition flushed_since_last_hundred (p : JetstreamProcessor) : Prop :=
  0 <= totalEvents (stats p) /\
  stored_totalEvents p <= totalEvents (stats p) /\
  100 * (totalEvents (stats p) / 100) <= stored_totalEvents p.

(** A hundred commit frames on the first socket. *)
Definition hundred_commits : list Input :=
  List.map (fun n => ws_message 0 host_ok
                       (parsed_event
                          (commit_event (Z.of_nat n) "work.doing.status")))
           (List.seq 1 100).

(** Every pending timer was set with a delay in [1000, 2000). *)
Definition delay_in_range (c : Connection.t) : Prop :=
  forall delay : R,
    Connection.reconnectTimeout c = Some delay ->
    (1000 <= delay < 2000)%R.

(** An object that has handled 99 commit events, none of them with a
    collection, and has not written its store yet. *)
Definition after_99_commits : JetstreamProcessor :=
  {| stats := {| cursor := 99; eventCounts := ∅; totalEvents := 99;
                 totalReceived := 99; lastEventTime := epoch |};
     storage := None; JETSTREAM_QUEUE := []; console := [] |}.

(** * Properties *)

(** ** Stepping lemmas *)

Lemma is_commit_true e : is_commit e = true <-> kind e = Kind.commit.
Proof. unfold is_commit. destruct (kind e); simpl; split; congruence. Qed.

Lemma processEvents_nil p : processEvents [] p = p.
Proof. reflexivity. Qed.

Lemma processEvents_cons h e inputs p :
  processEvents ((h, e) :: inputs) p
  = processEvents inputs (processEvent h e p).
Proof. reflexivity. Qed.

Lemma processEvents_app inputs1 inputs2 p :
  processEvents (inputs1 ++ inputs2) p
  = processEvents inputs2 (processEvents inputs1 p).
Proof. unfold processEvents. apply fold_left_app. Qed.

Lemma processEvents_snoc inputs h e p :
  processEvents (inputs ++ [(h, e)]) p
  = processEvent h e (processEvents inputs p).
Proof. now rewrite processEvents_app. Qed.

Lemma track_collection_scalars e s :
  cursor (fst (track_collection e s)) = cursor s /\
  totalEvents (fst (track_collection e s)) = totalEvents s /\
  totalReceived (fst (track_collection e s)) = totalReceived s /\
  lastEventTime (fst (track_collection e s)) = lastEventTime s.
Proof.
  unfold track_collection.
  destruct (commit e) as [c|]; [destruct (truthy (collection c))|]; simpl; auto.
Qed.

Lemma stats_processEvent h e p :
  stats (processEvent h e p) = stats_after (now_lastEventTime h) e (stats p).
Proof.
  unfold processEvent, stats_after, is_commit.
  destruct (Kind.eqb (kind e) Kind.commit); simpl; [|reflexivity].
  destruct (track_collection e _) as [s log1].
  destruct (enqueue h e _) as [q log2]. reflexivity.
Qed.

Lemma cursor_processEvent h e p :
  cursor (stats (processEvent h e p)) = time_us e.
Proof.
  rewrite stats_processEvent. unfold stats_after.
  destruct (is_commit e); [|reflexivity].
  now rewrite (proj1 (track_collection_scalars e _)).
Qed.

Lemma totalReceived_processEvent h e p :
  totalReceived (stats (processEvent h e p)) = totalReceived (stats p) + 1.
Proof.
  rewrite stats_processEvent. unfold stats_after.
  destruct (is_commit e); [|reflexivity].
  now rewrite (proj1 (proj2 (proj2 (track_collection_scalars e _)))).
Qed.

Lemma totalEvents_processEvent h e p :
  totalEvents (stats (processEvent h e p))
  = totalEvents (stats p) + (if is_commit e then 1 else 0).
Proof.
  rewrite stats_processEvent. unfold stats_after.
  destruct (is_commit e); simpl; [|lia].
  now rewrite (proj1 (proj2 (track_collection_scalars e _))).
Qed.

Lemma lastEventTime_processEvent h e p :
  lastEventTime (stats (processEvent h e p))
  = if is_commit e then now_lastEventTime h else lastEventTime (stats p).
Proof.
  rewrite stats_processEvent. unfold stats_after.
  destruct (is_commit e); [|reflexivity].
  now rewrite (proj2 (proj2 (proj2 (track_collection_scalars e _)))).
Qed.

(** ** The cursor (C1) *)

Lemma last_cons_shift {A} (x d : A) (l : list A) :
  List.last (x :: l) d = List.last l x.
Proof.
  revert x d. induction l as [|y l IH]; intros x d; [reflexivity|].
  change (List.last (x :: y :: l) d) with (List.last (y :: l) d).
  now rewrite !IH.
Qed.

Lemma last_map_default {A B} (f : A -> B) (l : list A) (d : A) :
  List.last (List.map f l) (f d) = f (List.last l d).
Proof.
  induction l as [|x [|y l] IH]; try reflexivity.
  exact IH.
Qed.

Lemma cursor_processEvents inputs p :
  cursor (stats (processEvents inputs p))
  = List.last (List.map time_us (events_of inputs)) (cursor (stats p)).
Proof.
  revert p. induction inputs as [|[h e] inputs IH]; intros p; [reflexivity|].
  rewrite processEvents_cons, IH, cursor_processEvent.
  unfold events_of. simpl List.map. now rewrite last_cons_shift.
Qed.

Lemma max_time_us_non_decreasing e es :
  non_decreasing e es = true ->
  max_time_us e es = List.last (List.map time_us es) (time_us e).
Proof.
  revert e. induction es as [|e' es IH]; intros e H; [reflexivity|].
  simpl in H. apply andb_prop in H as [Hle Hs]. apply Z.leb_le in Hle.
  simpl max_time_us. simpl List.map. rewrite last_cons_shift, (IH _ Hs).
  assert (time_us e' <= List.last (List.map time_us es) (time_us e')).
  { rewrite <- (IH _ Hs). clear. destruct es; simpl; lia. }
  lia.
Qed.

(** C1, as the specification states it, fails on a reconnect replay: the
    feed resumes before the cursor, the second event carries the smaller
    [time_us], and the cursor follows it down, below the maximum seen. *)
Lemma C1_cursor_below_maximum_on_replay :
  cursor (stats (processEvents replay (new_processor epoch))) = 4000000 /\
  max_time_us (commit_event 9000000 "work.doing.status")
              [commit_event 4000000 "work.doing.status"] = 9000000 /\
  cursor (stats (processEvents replay (new_processor epoch)))
  <> max_time_us (commit_event 9000000 "work.doing.status")
                 [commit_event 4000000 "work.doing.status"].
Proof. repeat split. vm_compute. discriminate. Qed.

(** C1, amended: after a non-empty sequence of events, processed in order
    from any state, [stats.cursor] is the [time_us] of the event processed
    last, whatever its kind; it is the maximum [time_us] seen so far
    whenever [time_us] never decreases along the sequence. *)
Theorem C1_cursor_is_latest_time_us :
  forall (h : Host) (e : JetstreamEvent)
         (inputs : list (Host * JetstreamEvent)) (p : JetstreamProcessor),
    let p' := processEvents ((h, e) :: inputs) p in
    cursor (stats p') = time_us (List.last (events_of inputs) e) /\
    (non_decreasing e (events_of inputs) = true ->
     cursor (stats p') = max_time_us e (events_of inputs)).
Proof.
  intros h e inputs p p'. subst p'.
  assert (Hlast : cursor (stats (processEvents ((h, e) :: inputs) p))
                  = List.last (List.map time_us (events_of inputs)) (time_us e)).
  { rewrite cursor_processEvents. unfold events_of. simpl List.map.
    apply last_cons_shift. }
  split.
  - rewrite Hlast. apply last_map_default.
  - intros Hs. now rewrite Hlast, max_time_us_non_decreasing.
Qed.

Lemma C1_cursor_is_latest_time_us_witness :
  non_decreasing (account_event 50) (events_of (List.tl scenario)) = true /\
  cursor (stats (processEvents scenario (new_processor epoch))) = 150 /\
  cursor (stats (processEvents scenario (new_processor epoch)))
  = max_time_us (account_event 50) (events_of (List.tl scenario)).
Proof.
  pose proof (C1_cursor_is_latest_time_us host_ok (account_event 50)
                (List.tl scenario) (new_processor epoch)) as [Hlast Hmax].
  split; [reflexivity|]. split; [exact Hlast|].
  apply Hmax. reflexivity.
Defined.

(** ** The totals (C2) *)

Lemma count_commits_cons e es :
  count_commits (e :: es)
  = (if is_commit e then 1 else 0) + count_commits es.
Proof.
  unfold count_commits. simpl. destruct (is_commit e); simpl length; lia.
Qed.

Lemma totals_processEvents inputs p :
  totalReceived (stats (processEvents inputs p))
  = totalReceived (stats p) + Z.of_nat (length inputs) /\
  totalEvents (stats (processEvents inputs p))
  = totalEvents (stats p) + count_commits (events_of inputs).
Proof.
  revert p. induction inputs as [|[h e] inputs IH]; intros p.
  - unfold count_commits. simpl. lia.
  - rewrite processEvents_cons.
    destruct (IH (processEvent h e p)) as [IHr IHe].
    rewrite IHr, IHe, totalReceived_processEvent, totalEvents_processEvent.
    unfold events_of. simpl List.map. rewrite count_commits_cons.
    simpl length. lia.
Qed.

Lemma count_commits_le_length inputs :
  count_commits (events_of inputs) <= Z.of_nat (length inputs).
Proof.
  unfold count_commits, events_of.
  pose proof (List.filter_length_le is_commit (List.map snd inputs)) as H.
  rewrite List.length_map in H. lia.
Qed.

(** C2: from any initial stats, a sequence of events raises
    [totalReceived] by the number of events and [totalEvents] by the number
    of commit events; if [totalEvents <= totalReceived] holds at the start
    it holds after every event (after every prefix of the sequence), and so
    it always holds from the zero initial stats. *)
Theorem C2_totals_count_events :
  forall (inputs : list (Host * JetstreamEvent)) (p : JetstreamProcessor),
    totalReceived (stats (processEvents inputs p))
    = totalReceived (stats p) + Z.of_nat (length inputs) /\
    totalEvents (stats (processEvents inputs p))
    = totalEvents (stats p) + count_commits (events_of inputs) /\
    (totalEvents (stats p) <= totalReceived (stats p) ->
     forall n : nat,
       totalEvents (stats (processEvents (take n inputs) p))
       <= totalReceived (stats (processEvents (take n inputs) p))) /\
    (forall (now : string) (n : nat),
       totalEvents (stats (processEvents (take n inputs) (new_processor now)))
       <= totalReceived
            (stats (processEvents (take n inputs) (new_processor now)))).
Proof.
  intros inputs p.
  assert (Hinv : forall q : JetstreamProcessor,
             totalEvents (stats q) <= totalReceived (stats q) ->
             forall n : nat,
               totalEvents (stats (processEvents (take n inputs) q))
               <= totalReceived (stats (processEvents (take n inputs) q))).
  { intros q Hq n.
    destruct (totals_processEvents (take n inputs) q) as [-> ->].
    pose proof (count_commits_le_length (take n inputs)). lia. }
  destruct (totals_processEvents inputs p) as [Hr He].
  repeat split; auto.
  intros now n. apply Hinv. simpl. lia.
Qed.

Lemma C2_totals_count_events_witness :
  totalEvents (stats (new_processor epoch))
  <= totalReceived (stats (new_processor epoch)) /\
  totalReceived (stats (processEvents scenario (new_processor epoch))) = 3 /\
  totalEvents (stats (processEvents scenario (new_processor epoch))) = 1 /\
  totalEvents (stats (processEvents (take 2 scenario) (new_processor epoch)))
  <= totalReceived
       (stats (processEvents (take 2 scenario) (new_processor epoch))).
Proof.
  destruct (C2_totals_count_events scenario (new_processor epoch))
    as (Hr & He & Hinv & _).
  assert (H0 : totalEvents (stats (new_processor epoch))
               <= totalReceived (stats (new_processor epoch)))
    by (simpl; lia).
  split; [exact H0|]. split; [exact Hr|]. split; [exact He|].
  exact (Hinv H0 2%nat).
Defined.

(** ** The per-collection counters (C3, C10) *)

(** The collection that [processEvent] counts for an event, if any. *)
Lemma track_collection_eventCounts e s :
  eventCounts (fst (track_collection e s))
  = match commit_collection e with
    | Some c =>
        if truthy c then <[c := count_of c s + 1]> (eventCounts s)
        else eventCounts s
    | None => eventCounts s
    end.
Proof.
  unfold track_collection, commit_collection.
  destruct (commit e) as [c|]; simpl; [|reflexivity].
  destruct (truthy (collection c)); reflexivity.
Qed.

Lemma eventCounts_processEvent h e p :
  eventCounts (stats (processEvent h e p))
  = if is_commit e then
      match commit_collection e with
      | Some c =>
          if truthy c then
            <[c := count_of c (stats p) + 1]> (eventCounts (stats p))
          else eventCounts (stats p)
      | None => eventCounts (stats p)
      end
    else eventCounts (stats p).
Proof.
  rewrite stats_processEvent. unfold stats_after.
  destruct (is_commit e); [|reflexivity].
  now rewrite track_collection_eventCounts.
Qed.

Lemma truthy_nonempty c : truthy c = true <-> c <> "".
Proof. destruct c; simpl; split; congruence. Qed.

Lemma count_collection_cons c e es :
  count_collection c (e :: es)
  = (if commit_of c e then 1 else 0) + count_collection c es.
Proof.
  unfold count_collection. simpl. destruct (commit_of c e); simpl length; lia.
Qed.

Lemma count_of_processEvent c h e p :
  c <> "" ->
  count_of c (stats (processEvent h e p))
  = count_of c (stats p) + (if commit_of c e then 1 else 0).
Proof.
  intros Hc. unfold count_of at 1. rewrite eventCounts_processEvent.
  unfold commit_of. destruct (is_commit e); simpl; [|unfold count_of; lia].
  destruct (commit_collection e) as [c'|]; [|unfold count_of; lia].
  destruct (String.eqb_spec c' c) as [->|Hne].
  - rewrite (proj2 (truthy_nonempty c) Hc), lookup_insert_eq. reflexivity.
  - destruct (truthy c'); [rewrite lookup_insert_ne by exact Hne|];
      unfold count_of; lia.
Qed.

Lemma count_of_processEvents c inputs p :
  c <> "" ->
  count_of c (stats (processEvents inputs p))
  = count_of c (stats p) + count_collection c (events_of inputs).
Proof.
  intros Hc. revert p.
  induction inputs as [|[h e] inputs IH]; intros p.
  - unfold count_collection. simpl. lia.
  - rewrite processEvents_cons, IH, count_of_processEvent by exact Hc.
    unfold events_of. simpl List.map. rewrite count_collection_cons. lia.
Qed.

Lemma sum_values_insert_fresh (m : gmap string Z) c v :
  m !! c = None -> sum_values (<[c := v]> m) = v + sum_values m.
Proof.
  intros Hc. unfold sum_values.
  rewrite map_fold_insert_L; [reflexivity| |exact Hc].
  intros; lia.
Qed.

Lemma sum_values_insert (m : gmap string Z) c v :
  sum_values (<[c := v]> m) = sum_values m - default 0 (m !! c) + v.
Proof.
  destruct (m !! c) as [x|] eqn:Hc; simpl.
  - rewrite <- (insert_delete_eq m c v).
    rewrite <- (insert_delete_id m c x Hc) at 2.
    rewrite !sum_values_insert_fresh by apply lookup_delete_eq. lia.
  - rewrite sum_values_insert_fresh by exact Hc. lia.
Qed.

Lemma sum_eventCounts_processEvent h e p :
  sum_eventCounts (stats (processEvent h e p))
  = sum_eventCounts (stats p) + (if counted e then 1 else 0).
Proof.
  unfold sum_eventCounts, counted. rewrite eventCounts_processEvent.
  destruct (is_commit e); simpl; [|lia].
  destruct (commit_collection e) as [c|]; [|lia].
  destruct (truthy c); [|lia].
  rewrite sum_values_insert. unfold count_of. lia.
Qed.

Lemma sum_eventCounts_processEvents inputs p :
  sum_eventCounts (stats (processEvents inputs p))
  = sum_eventCounts (stats p)
    + Z.of_nat (length (List.filter counted (events_of inputs))).
Proof.
  revert p. induction inputs as [|[h e] inputs IH]; intros p.
  - simpl. lia.
  - rewrite processEvents_cons, IH, sum_eventCounts_processEvent.
    unfold events_of. simpl List.map. simpl List.filter.
    destruct (counted e); simpl length; lia.
Qed.

Lemma counted_when_named es :
  forallb carries_named_collection es = true ->
  List.filter counted es = List.filter is_commit es.
Proof.
  induction es as [|e es IH]; intros H; [reflexivity|].
  simpl in H. apply andb_prop in H as [He Hes].
  simpl. rewrite (IH Hes).
  unfold carries_named_collection in He. unfold counted.
  destruct (is_commit e); simpl in *; [|reflexivity].
  destruct (commit_collection e) as [c|]; [|discriminate].
  now rewrite He.
Qed.

(** C3, as the specification states it, fails for the empty collection
    name: a commit event whose [commit.collection] is the empty string
    carries a collection, yet the guard skips it, so [eventCounts] has no
    entry for it (the count of such events is 1) and the sum of the
    counters (0) is below [totalEvents] (1). *)
Lemma C3_empty_collection_is_not_counted :
  let p := processEvents unnamed_commit (new_processor epoch) in
  forallb carries_collection (events_of unnamed_commit) = true /\
  eventCounts (stats p) !! "" = None /\
  count_of "" (stats p) <> count_collection "" (events_of unnamed_commit) /\
  sum_eventCounts (stats p) <> totalEvents (stats p).
Proof. vm_compute. repeat split; discriminate. Qed.

(** C3, amended: from the zero initial stats, for every sequence of events
    and every collection name [c] that is neither the empty string nor
    the name of a member of [Object.prototype], [eventCounts[c]] (0 when
    absent) is the number of commit events whose [commit.collection] is
    [c]; and whenever every commit event of the sequence carries a
    collection that is neither the empty string nor such a name, the sum
    of the [eventCounts] values equals [totalEvents]. *)
Theorem C3_eventCounts_count_named_collections :
  forall (inputs : list (Host * JetstreamEvent)) (now : string),
    let p := processEvents inputs (new_processor now) in
    (forall c : string,
       c <> "" ->
       inherited c = false ->
       count_of c (stats p) = count_collection c (events_of inputs)) /\
    (forallb carries_named_collection (events_of inputs) = true ->
     forallb own_collection (events_of inputs) = true ->
     sum_eventCounts (stats p) = totalEvents (stats p)).
Proof.
  intros inputs now p. subst p. split.
  - intros c Hc _. rewrite count_of_processEvents by exact Hc.
    unfold count_of. simpl. rewrite lookup_empty. simpl. lia.
  - intros Hall _.
    rewrite sum_eventCounts_processEvents, counted_when_named by exact Hall.
    destruct (totals_processEvents inputs (new_processor now)) as [_ ->].
    unfold count_commits. reflexivity.
Qed.

Lemma C3_eventCounts_count_named_collections_witness :
  "app.bsky.feed.post" <> "" /\
  inherited "app.bsky.feed.post" = false /\
  forallb carries_named_collection (events_of scenario) = true /\
  forallb own_collection (events_of scenario) = true /\
  count_of "app.bsky.feed.post"
    (stats (processEvents scenario (new_processor epoch))) = 1 /\
  sum_eventCounts (stats (processEvents scenario (new_processor epoch)))
  = totalEvents (stats (processEvents scenario (new_processor epoch))).
Proof.
  destruct (C3_eventCounts_count_named_collections scenario epoch)
    as [Hcount Hsum].
  assert (Hc : "app.bsky.feed.post" <> "") by discriminate.
  assert (Hi : inherited "app.bsky.feed.post" = false) by reflexivity.
  assert (Hn : forallb carries_named_collection (events_of scenario) = true)
    by reflexivity.
  assert (Ho : forallb own_collection (events_of scenario) = true)
    by reflexivity.
  split; [exact Hc|]. split; [exact Hi|]. split; [exact Hn|].
  split; [exact Ho|]. split; [exact (Hcount _ Hc Hi)|].
  exact (Hsum Hn Ho).
Defined.

(** C10: a commit event whose [commit.collection] is the empty string
    raises [totalEvents] and sets [lastEventTime], but leaves
    [eventCounts] as it was; so there is a sequence of events, each commit
    of which carries a collection field, after which the sum of the
    [eventCounts] values is strictly below [totalEvents]. *)
Theorem C10_empty_collection_skips_eventCounts :
  (forall (h : Host) (e : JetstreamEvent) (c : Commit)
          (p : JetstreamProcessor),
     kind e = Kind.commit ->
     commit e = Some c ->
     collection c = "" ->
     totalEvents (stats (processEvent h e p)) = totalEvents (stats p) + 1 /\
     lastEventTime (stats (processEvent h e p)) = now_lastEventTime h /\
     eventCounts (stats (processEvent h e p)) = eventCounts (stats p)) /\
  (exists inputs : list (Host * JetstreamEvent),
     forallb carries_collection (events_of inputs) = true /\
     forall now : string,
       sum_eventCounts (stats (processEvents inputs (new_processor now)))
       < totalEvents (stats (processEvents inputs (new_processor now)))).
Proof.
  split.
  - intros h e c p Hk Hc Hempty.
    apply is_commit_true in Hk.
    rewrite totalEvents_processEvent, lastEventTime_processEvent,
      eventCounts_processEvent, Hk.
    unfold commit_collection. rewrite Hc. simpl. rewrite Hempty. auto.
  - exists unnamed_commit. split; [reflexivity|].
    intros now.
    rewrite sum_eventCounts_processEvents.
    destruct (totals_processEvents unnamed_commit (new_processor now))
      as [_ ->].
    vm_compute. reflexivity.
Qed.

Lemma C10_empty_collection_skips_eventCounts_witness :
  let e := commit_event 100 "" in
  let p := new_processor epoch in
  kind e = Kind.commit /\
  (exists c, commit e = Some c /\ collection c = "") /\
  totalEvents (stats (processEvent host_ok e p)) = 1 /\
  lastEventTime (stats (processEvent host_ok e p))
  = "2025-06-01T00:00:00.000Z" /\
  eventCounts (stats (processEvent host_ok e p)) = ∅.
Proof.
  intros e p.
  split; [reflexivity|].
  split; [eexists; split; reflexivity|].
  exact (proj1 C10_empty_collection_skips_eventCounts host_ok e _ p
           eq_refl eq_refl eq_refl).
Defined.

(** ** Enqueue failure (C6) *)




(** ** resetStats (C7) *)

(** C7: whatever the state before, after [resetStats] the cursor and the
    totals are 0 and [eventCounts] is empty, and the store holds that same
    record; a second [resetStats] leaves the cursor, the totals and
    [eventCounts] where the first put them. *)
Theorem C7_resetStats_zeroes_and_flushes :
  forall (now now' : string) (p : JetstreamProcessor),
    let p1 := resetStats now p in
    let p2 := resetStats now' p1 in
    cursor (stats p1) = 0 /\
    totalEvents (stats p1) = 0 /\
    totalReceived (stats p1) = 0 /\
    eventCounts (stats p1) = ∅ /\
    storage p1 = Some (stats p1) /\
    cursor (stats p2) = cursor (stats p1) /\
    totalEvents (stats p2) = totalEvents (stats p1) /\
    totalReceived (stats p2) = totalReceived (stats p1) /\
    eventCounts (stats p2) = eventCounts (stats p1) /\
    storage p2 = Some (stats p2).
Proof. intros now now' p. simpl. repeat split. Qed.

(** ** The resume cursor (C4) *)

Lemma subscribe_url_params s :
  searchParams (subscribe_url s)
  = [("wantedCollections", "work.doing.*");
     ("wantedCollections", "blue.2048.*")]
    ++ (if 0 <? cursor s
        then [("cursor", Number_toString (js_sub (cursor s) 5000000))]
        else []).
Proof.
  unfold subscribe_url. destruct (0 <? cursor s); reflexivity.
Qed.

Lemma double_round_exact z : Z.abs z <= 2 ^ 53 -> double_round z = z.
Proof.
  intros Hz. unfold double_round.
  now apply Z.leb_le in Hz as ->.
Qed.

Lemma Number_toString_exact z :
  Z.abs z <= 2 ^ 53 -> Number_toString z = pretty z.
Proof.
  intros Hz. unfold Number_toString, Number_toString_abs.
  destruct (Z.ltb_spec z 0) as [Hneg|Hpos].
  - assert ((- z <=? 2 ^ 53) = true) as -> by (apply Z.leb_le; lia).
    destruct z as [|x|x]; try lia. reflexivity.
  - now assert ((z <=? 2 ^ 53) = true) as -> by (apply Z.leb_le; lia).
Qed.

Lemma buffered_cursor_exact c :
  0 < c <= 2 ^ 53 ->
  Number_toString (js_sub c 5000000) = pretty (c - 5000000).
Proof.
  intros Hc. unfold js_sub.
  assert (Z.abs (c - 5000000) <= 2 ^ 53) by lia.
  now rewrite double_round_exact, Number_toString_exact.
Qed.

(** C4, as the specification states it, fails for a stored cursor above
    2^53: the subtraction and the printing are those of doubles, so for a
    cursor of 2^60 the parameter is 1152921504601847000, which is not
    2^60 - 5000000 = 1152921504601846976. *)
Lemma C4_cursor_above_2_53_is_rounded :
  0 < cursor (stats_with_cursor (2 ^ 60)) /\
  URLSearchParams.get "cursor"
    (searchParams (subscribe_url (stats_with_cursor (2 ^ 60))))
  = Some "1152921504601847000" /\
  pretty (cursor (stats_with_cursor (2 ^ 60)) - 5000000)
  = "1152921504601846976" /\
  URLSearchParams.get "cursor"
    (searchParams (subscribe_url (stats_with_cursor (2 ^ 60))))
  <> Some (pretty (cursor (stats_with_cursor (2 ^ 60)) - 5000000)).
Proof.
  split; [reflexivity|]. split; [vm_compute; reflexivity|].
  split; [vm_compute; reflexivity|]. vm_compute. discriminate.
Qed.

(** C4, amended: for every stored cursor that is an integer above 0 and up
    to 2^53 = 9007199254740992, those from 1 to 5,000,000 included, the
    URL carries exactly one [cursor] parameter, the decimal numeral of
    [cursor - 5000000] (and of no other number); for a stored cursor of 0
    the URL carries no [cursor] parameter. *)
Theorem C4_resume_cursor_has_five_second_buffer :
  forall s : StoredStats,
    (0 < cursor s <= 2 ^ 53 ->
     URLSearchParams.getAll "cursor" (searchParams (subscribe_url s))
     = [pretty (cursor s - 5000000)] /\
     URLSearchParams.get "cursor" (searchParams (subscribe_url s))
     = Some (pretty (cursor s - 5000000)) /\
     forall n : Z,
       URLSearchParams.get "cursor" (searchParams (subscribe_url s))
       = Some (pretty n) ->
       n = cursor s - 5000000) /\
    (cursor s = 0 ->
     URLSearchParams.has "cursor" (searchParams (subscribe_url s)) = false /\
     URLSearchParams.get "cursor" (searchParams (subscribe_url s)) = None).
Proof.
  intros s. rewrite subscribe_url_params. split.
  - intros Hc. rewrite (buffered_cursor_exact _ Hc).
    destruct Hc as [Hpos _]. apply Z.ltb_lt in Hpos. rewrite Hpos.
    repeat split.
    intros n Hn. simpl in Hn. injection Hn as Hn.
    symmetry. exact (pretty_Z_inj _ _ Hn).
  - intros Hzero. rewrite Hzero. split; reflexivity.
Qed.

Lemma C4_resume_cursor_has_five_second_buffer_witness :
  0 < cursor (stats_with_cursor 1) <= 2 ^ 53 /\
  URLSearchParams.get "cursor"
    (searchParams (subscribe_url (stats_with_cursor 1)))
  = Some "-4999999" /\
  cursor (stats_with_cursor 0) = 0 /\
  URLSearchParams.has "cursor"
    (searchParams (subscribe_url (stats_with_cursor 0))) = false.
Proof.
  assert (H1 : 0 < cursor (stats_with_cursor 1) <= 2 ^ 53) by (simpl; lia).
  assert (H0 : cursor (stats_with_cursor 0) = 0) by reflexivity.
  split; [exact H1|].
  split.
  - exact (proj1 (proj2 (proj1 (C4_resume_cursor_has_five_second_buffer
                                  (stats_with_cursor 1)) H1))).
  - split; [exact H0|].
    exact (proj1 (proj2 (C4_resume_cursor_has_five_second_buffer
                           (stats_with_cursor 0)) H0)).
Defined.

(** ** The queue consumer (C5) *)

Lemma Response_ok_range status :
  Response_ok status = true <-> 200 <= status <= 299.
Proof. unfold Response_ok. rewrite andb_true_iff, !Z.leb_le. tauto. Qed.

Section DeliveryProperties.
Variable JSON_stringify : JetstreamEvent -> string.

Lemma sendToWebhook_resolves fetch e :
  sendToWebhook JSON_stringify fetch e = inl tt
  <-> answered_2xx (fetch (webhook_request JSON_stringify e)) = true.
Proof.
  unfold sendToWebhook, answered_2xx.
  destruct (fetch _) as [status text|err]; [|split; discriminate].
  destruct (Response_ok status); simpl; split; congruence.
Qed.

Lemma deliver_disposition fetch b :
  let r := fetch (webhook_request JSON_stringify (event b)) in
  let m := fst (deliver JSON_stringify fetch (Message.delivered b)) in
  Message.body m = b /\
  Message.acked m = answered_2xx r /\
  Message.retried m = negb (answered_2xx r).
Proof.
  unfold deliver, sendToWebhook, answered_2xx. simpl.
  destruct (fetch _) as [status text|err]; [|auto].
  destruct (Response_ok status); simpl; auto.
Qed.
End DeliveryProperties.

(** C5: in a batch, the message at each position comes out of [queue]
    acknowledged exactly when the webhook answered its own POST with a
    status from 200 to 299, and marked for retry, not acknowledged, on any
    other status or when [fetch] rejects; what it comes out as depends on
    the answer to its own request alone, whatever happens to the requests
    of the other messages of the batch. *)
Theorem C5_ack_iff_2xx_per_message :
  forall (JSON_stringify : JetstreamEvent -> string)
         (fetch : nat -> Request -> FetchResult)
         (bodies : list QueueMessage) (i : nat) (b : QueueMessage),
    bodies !! i = Some b ->
    let r := fetch i (webhook_request JSON_stringify (event b)) in
    exists m : Message.t,
      queue JSON_stringify fetch (Message.delivered <$> bodies) !! i = Some m /\
      Message.body m = b /\
      (Message.acked m = true <->
       exists status text, r = Response status text /\ 200 <= status <= 299) /\
      Message.retried m = negb (Message.acked m) /\
      forall fetch' : nat -> Request -> FetchResult,
        fetch' i (webhook_request JSON_stringify (event b)) = r ->
        queue JSON_stringify fetch' (Message.delivered <$> bodies) !! i
        = Some m.
Proof.
  intros JSON_stringify fetch bodies i b Hb r.
  destruct (deliver_disposition JSON_stringify (fetch i) b)
    as (Hbody & Hack & Hretry).
  fold r in Hack, Hretry.
  exists (fst (deliver JSON_stringify (fetch i) (Message.delivered b))).
  assert (Hat : forall f : nat -> Request -> FetchResult,
             queue JSON_stringify f (Message.delivered <$> bodies) !! i
             = Some (fst (deliver JSON_stringify (f i)
                            (Message.delivered b)))).
  { intros f. unfold queue.
    now rewrite list_lookup_imap, list_lookup_fmap, Hb. }
  split; [apply Hat|]. split; [exact Hbody|]. split; [|split].
  - rewrite Hack. unfold answered_2xx.
    destruct r as [status text|err].
    + rewrite Response_ok_range. split.
      * intros H. exists status, text. auto.
      * intros (status' & text' & Heq & H). now injection Heq as -> ->.
    + split; [discriminate|]. now intros (? & ? & ? & _).
  - now rewrite Hretry, Hack.
  - intros fetch' Hsame. rewrite Hat. f_equal.
    unfold deliver, sendToWebhook. cbn [Message.body Message.delivered].
    rewrite Hsame. reflexivity.
Qed.

Lemma C5_ack_iff_2xx_per_message_witness :
  two_messages !! 1%nat
  = Some {| event := commit_event 200 "work.doing.status";
            queuedAt := epoch; retryCount := Some 0 |} /\
  exists m,
    queue JSON_stub fetch_500_then_200 (Message.delivered <$> two_messages)
      !! 1%nat = Some m /\
    Message.acked m = true /\
    Message.retried m = false.
Proof.
  split; [reflexivity|].
  destruct (C5_ack_iff_2xx_per_message JSON_stub fetch_500_then_200
              two_messages 1%nat _ eq_refl)
    as (m & Hm & _ & Hack & Hretry & _).
  assert (Ha : Message.acked m = true).
  { apply Hack. exists 200, "OK". split; [reflexivity|lia]. }
  exists m. split; [exact Hm|]. split; [exact Ha|].
  rewrite Hretry, Ha. reflexivity.
Defined.

Example queue_isolates_failures :
  (fun m => (Message.acked m, Message.retried m))
    <$> queue JSON_stub fetch_500_then_200 (Message.delivered <$> two_messages)
  = [(false, true); (true, false)].
Proof. reflexivity. Qed.

(** ** The webhook request (C8) *)

(** C8, on the code: the request is a POST of the event's JSON with the
    Content-Type and User-Agent headers, but it goes to the URL written in
    [sendToWebhook], whatever URL is configured, and it never carries an
    [Authorization] header; with a bearer token configured it is therefore
    not the request the documentation describes. *)
Theorem C8_webhook_request_ignores_configuration :
  forall (JSON_stringify : JetstreamEvent -> string) (env : Env)
         (token : string) (e : JetstreamEvent),
    WEBHOOK_BEARER_TOKEN env = Some token ->
    let req := webhook_request JSON_stringify e in
    method req = "POST" /\
    body req = JSON_stringify e /\
    header_get "Content-Type" (headers req) = Some "application/json" /\
    header_get "User-Agent" (headers req) = Some "Jetstream-Unified/1.0" /\
    url req = "https://doingtunnel.doing.work/api/webhooks/jetstream-event" /\
    header_get "Authorization" (headers req) = None /\
    header_get "Authorization"
      (headers (documented_request JSON_stringify env e))
    = Some ("Bearer " +:+ token) /\
    req <> documented_request JSON_stringify env e.
Proof.
  intros JSON_stringify env token e Htoken req. subst req.
  assert (Hdoc : header_get "Authorization"
                   (headers (documented_request JSON_stringify env e))
                 = Some ("Bearer " +:+ token)).
  { unfold documented_request. rewrite Htoken. reflexivity. }
  repeat split; try exact Hdoc.
  intros Heq. rewrite <- Heq in Hdoc. discriminate Hdoc.
Qed.

Lemma C8_webhook_request_ignores_configuration_witness :
  let req := webhook_request JSON_stub (commit_event 100 "work.doing.status") in
  WEBHOOK_BEARER_TOKEN deployment = Some "your-bearer-token-here" /\
  url req <> WEBHOOK_URL deployment /\
  header_get "Authorization" (headers req) = None.
Proof.
  intros req.
  destruct (C8_webhook_request_ignores_configuration JSON_stub deployment
              "your-bearer-token-here"
              (commit_event 100 "work.doing.status") eq_refl)
    as (_ & _ & _ & _ & Hurl & Hauth & _).
  split; [reflexivity|]. split; [|exact Hauth].
  fold req in Hurl. rewrite Hurl. discriminate.
Defined.

(** ** The reconnect delay (C9) *)

Lemma Rpower_2_unit_interval (r : R) :
  (0 <= r < 1)%R -> (1 <= Rpower 2 r < 2)%R.
Proof.
  intros [H0 H1]. split.
  - rewrite <- (Rpower_O 2) by lra.
    apply Rle_Rpower; lra.
  - rewrite <- (Rpower_1 2) at 2 by lra.
    apply Rpower_lt; lra.
Qed.

(** C9: for every draw [r] with [0 <= r < 1] the delay
    [min(1000 * 2^r, 30000)] lies in [1000, 2000): the minimum is its
    first argument, never the 30000 cap, and the timeout that
    [scheduleReconnect] sets is below two seconds.  (The arithmetic is
    that of the real numbers.) *)
Theorem C9_reconnect_delay_below_two_seconds :
  forall r : R,
    (0 <= r < 1)%R ->
    (1000 <= reconnect_delay r < 2000)%R /\
    reconnect_delay r = (baseDelay * Rpower 2 r)%R /\
    reconnect_delay r <> maxDelay /\
    exists delay : R,
      scheduleReconnect false r = Some delay /\ (delay < 2000)%R.
Proof.
  intros r Hr. pose proof (Rpower_2_unit_interval r Hr) as [Hlo Hhi].
  assert (Hmin : reconnect_delay r = (baseDelay * Rpower 2 r)%R).
  { unfold reconnect_delay, baseDelay, maxDelay. apply Rmin_left. lra. }
  rewrite Hmin. unfold baseDelay, maxDelay.
  repeat split; try lra.
  exists (reconnect_delay r). split; [reflexivity|].
  rewrite Hmin. unfold baseDelay. lra.
Qed.

Lemma C9_reconnect_delay_below_two_seconds_witness :
  (0 <= 0 < 1)%R /\ (1000 <= reconnect_delay 0 < 2000)%R.
Proof.
  assert (H : (0 <= 0 < 1)%R) by lra.
  split; [exact H|].
  exact (proj1 (C9_reconnect_delay_below_two_seconds 0%R H)).
Defined.

(** * Further properties of the code *)

(** ** processEvent over a stream *)

Lemma processEvent_not_commit h e p :
  is_commit e = false ->
  processEvent h e p
  = {| stats := incr_totalReceived (set_cursor (time_us e) (stats p));
       storage := storage p;
       JETSTREAM_QUEUE := JETSTREAM_QUEUE p;
       console := console p |}.
Proof.
  intros Hk. unfold processEvent. fold (is_commit e). now rewrite Hk.
Qed.

(** X1: Identity and account events only move the cursor and [totalReceived]:
    a stream without commit events leaves the queue, the store, the
    console, [eventCounts], [totalEvents] and [lastEventTime] untouched. *)
Theorem skipped_events_touch_cursor_and_totalReceived_only :
  forall (inputs : list (Host * JetstreamEvent)) (p : JetstreamProcessor),
    forallb (fun he => negb (is_commit (snd he))) inputs = true ->
    let p' := processEvents inputs p in
    JETSTREAM_QUEUE p' = JETSTREAM_QUEUE p /\
    storage p' = storage p /\
    console p' = console p /\
    eventCounts (stats p') = eventCounts (stats p) /\
    totalEvents (stats p') = totalEvents (stats p) /\
    lastEventTime (stats p') = lastEventTime (stats p) /\
    totalReceived (stats p')
    = totalReceived (stats p) + Z.of_nat (length inputs).
Proof.
  intros inputs. induction inputs as [|[h e] inputs IH]; intros p Hall p'.
  - subst p'. simpl. repeat split; lia.
  - simpl in Hall. apply andb_prop in Hall as [He Hall].
    apply negb_true_iff in He. subst p'.
    rewrite processEvents_cons.
    destruct (IH (processEvent h e p) Hall) as (Hq & Hs & Hc & Hm & Ht & Hl & Hr).
    rewrite Hq, Hs, Hc, Hm, Ht, Hl, Hr.
    rewrite (processEvent_not_commit h e p He). simpl.
    repeat split. lia.
Qed.

Lemma skipped_events_touch_cursor_and_totalReceived_only_witness :
  let inputs := [(host_ok, account_event 50); (host_ok, identity_event 150)] in
  forallb (fun he => negb (is_commit (snd he))) inputs = true /\
  JETSTREAM_QUEUE (processEvents inputs (new_processor epoch)) = [] /\
  storage (processEvents inputs (new_processor epoch)) = None.
Proof.
  intros inputs.
  destruct (skipped_events_touch_cursor_and_totalReceived_only inputs
              (new_processor epoch) eq_refl) as (Hq & Hs & _).
  split; [reflexivity|]. split; [exact Hq | exact Hs].
Defined.

Lemma processEvent_commit h e p :
  is_commit e = true ->
  let s := set_lastEventTime (now_lastEventTime h)
             (incr_totalEvents
                (incr_totalReceived (set_cursor (time_us e) (stats p)))) in
  processEvent h e p
  = {| stats := fst (track_collection e s);
       storage := if js_rem (totalEvents (fst (track_collection e s))) 100 =? 0
                  then Some (fst (track_collection e s))
                  else storage p;
       JETSTREAM_QUEUE := fst (enqueue h e (JETSTREAM_QUEUE p));
       console := console p ++ snd (track_collection e s)
                  ++ snd (enqueue h e (JETSTREAM_QUEUE p)) |}.
Proof.
  intros Hk s. unfold processEvent. fold (is_commit e). rewrite Hk. simpl.
  fold s. destruct (track_collection e s) as [s' log1].
  destruct (enqueue h e _) as [q log2]. reflexivity.
Qed.

Lemma track_collection_logs_no_error e s :
  List.filter is_send_error (snd (track_collection e s)) = [].
Proof.
  unfold track_collection.
  destruct (commit e) as [c|]; [|reflexivity].
  destruct (truthy (collection c)); reflexivity.
Qed.

Lemma queue_console_processEvent h e p :
  JETSTREAM_QUEUE (processEvent h e p)
  = JETSTREAM_QUEUE p
    ++ (if accepted_commit (h, e) then [queued (h, e)] else []) /\
  exists lines,
    console (processEvent h e p) = console p ++ lines /\
    length (List.filter is_send_error lines)
    = (if rejected_commit (h, e) then 1%nat else 0%nat).
Proof.
  unfold accepted_commit, rejected_commit. simpl.
  destruct (is_commit e) eqn:Hk.
  - rewrite (processEvent_commit h e p Hk). simpl. unfold enqueue.
    split.
    + destruct (send_throws h); simpl; [now rewrite app_nil_r|reflexivity].
    + eexists. split; [reflexivity|].
      rewrite List.filter_app, track_collection_logs_no_error.
      destruct (send_throws h); reflexivity.
  - rewrite (processEvent_not_commit h e p Hk). simpl.
    split; [now rewrite app_nil_r|].
    exists []. split; [now rewrite app_nil_r|reflexivity].
Qed.

Lemma queue_processEvents inputs p :
  JETSTREAM_QUEUE (processEvents inputs p)
  = JETSTREAM_QUEUE p
    ++ List.map queued (List.filter accepted_commit inputs).
Proof.
  revert p. induction inputs as [|[h e] inputs IH]; intros p.
  - simpl. now rewrite app_nil_r.
  - rewrite processEvents_cons, IH.
    rewrite (proj1 (queue_console_processEvent h e p)).
    simpl List.filter. destruct (accepted_commit (h, e)); simpl.
    + now rewrite <- app_assoc.
    + now rewrite app_nil_r.
Qed.

(** X2: The queue receives exactly the commit events whose [send] was
    accepted, in arrival order, each as a message with [retryCount] 0 and
    the [queuedAt] of its call; nothing already queued is lost. *)
Theorem queue_receives_accepted_commits_in_order :
  forall (inputs : list (Host * JetstreamEvent)) (p : JetstreamProcessor),
    let added := List.map queued (List.filter accepted_commit inputs) in
    JETSTREAM_QUEUE (processEvents inputs p) = JETSTREAM_QUEUE p ++ added /\
    Forall (fun m => retryCount m = Some 0 /\ kind (event m) = Kind.commit)
           added.
Proof.
  intros inputs p added. split; [apply queue_processEvents|].
  subst added. apply List.Forall_forall. intros m Hm.
  apply List.in_map_iff in Hm as ([h e] & <- & Hin).
  apply List.filter_In in Hin as [_ Hacc].
  unfold accepted_commit in Hacc. apply andb_prop in Hacc as [Hk _].
  split; [reflexivity|]. now apply is_commit_true.
Qed.

(** X3: Every commit event is either handed to the queue or logged as a send
    error, never both and never neither: over a stream, the messages added
    to the queue and the send errors added to the console add up to the
    number of commit events. *)
Theorem commits_are_enqueued_or_logged :
  forall (inputs : list (Host * JetstreamEvent)) (p : JetstreamProcessor),
    let p' := processEvents inputs p in
    exists lines,
      console p' = console p ++ lines /\
      length (List.filter is_send_error lines)
      = length (List.filter rejected_commit inputs) /\
      Z.of_nat (length (JETSTREAM_QUEUE p'))
      + Z.of_nat (length (List.filter is_send_error lines))
      = Z.of_nat (length (JETSTREAM_QUEUE p))
        + count_commits (events_of inputs).
Proof.
  intros inputs. induction inputs as [|[h e] inputs IH]; intros p p'.
  - exists []. subst p'. simpl. rewrite app_nil_r.
    unfold count_commits. simpl. repeat split; lia.
  - subst p'. rewrite processEvents_cons.
    destruct (IH (processEvent h e p)) as (lines & Hc & He & Hsum).
    destruct (queue_console_processEvent h e p) as (Hq & l1 & Hc1 & He1).
    exists (l1 ++ lines). split; [|split].
    + rewrite Hc, Hc1. now rewrite <- app_assoc.
    + rewrite List.filter_app, length_app, He, He1. simpl List.filter.
      destruct (rejected_commit (h, e)); reflexivity.
    + rewrite List.filter_app, length_app, He1.
      rewrite Hq, length_app in Hsum.
      unfold events_of in *. simpl List.map. rewrite count_commits_cons.
      unfold accepted_commit, rejected_commit in *. simpl in *.
      destruct (is_commit e); simpl in *;
        [destruct (send_throws h)|]; simpl in *; lia.
Qed.

(** ** The entries of eventCounts *)

Lemma size_le_sum_values (m : gmap string Z) :
  (forall c n, m !! c = Some n -> 1 <= n) ->
  Z.of_nat (size m) <= sum_values m.
Proof.
  induction m as [|c n m Hc IH] using map_ind; intros Hpos.
  - rewrite map_size_empty. unfold sum_values. rewrite map_fold_empty. lia.
  - rewrite map_size_insert_None, sum_values_insert_fresh by exact Hc.
    pose proof (Hpos c n (lookup_insert_eq m c n)).
    assert (Z.of_nat (size m) <= sum_values m).
    { apply IH. intros c' n' H'. apply (Hpos c' n').
      rewrite lookup_insert_ne; [exact H'|]. intros ->. congruence. }
    lia.
Qed.

Lemma entries_named_and_positive inputs p :
  (forall c n, eventCounts (stats p) !! c = Some n -> c <> "" /\ 1 <= n) ->
  forall c n,
    eventCounts (stats (processEvents inputs p)) !! c = Some n ->
    c <> "" /\ 1 <= n.
Proof.
  revert p. induction inputs as [|[h e] inputs IH]; intros p Hp; [exact Hp|].
  rewrite processEvents_cons. apply IH.
  intros c n. rewrite eventCounts_processEvent.
  destruct (is_commit e); [|apply Hp].
  destruct (commit_collection e) as [c'|]; [|apply Hp].
  destruct (truthy c') eqn:Ht; [|apply Hp].
  destruct (decide (c' = c)) as [->|Hne].
  - rewrite lookup_insert_eq. intros [= <-].
    split; [now apply truthy_nonempty|].
    unfold count_of. destruct (eventCounts (stats p) !! c) as [k|] eqn:Hk;
      simpl; [destruct (Hp c k Hk)|]; lia.
  - rewrite lookup_insert_ne by exact Hne. apply Hp.
Qed.

Lemma filter_length_implied {A} (f g : A -> bool) (l : list A) :
  (forall x, f x = true -> g x = true) ->
  (length (List.filter f l) <= length (List.filter g l))%nat.
Proof.
  intros Hfg. induction l as [|x l IH]; [reflexivity|]. simpl.
  destruct (f x) eqn:Hf.
  - rewrite (Hfg x Hf). simpl. lia.
  - destruct (g x); simpl; lia.
Qed.

(** X4: From the zero stats, over a stream in which no commit event
    carries the name of a member of [Object.prototype] as its collection,
    every entry of [eventCounts] has a name other than the empty string
    and a value of at least 1, the value is the number of commit events of
    that collection, and there are at most [totalEvents] entries. *)
Theorem eventCounts_entries_are_named_and_counted :
  forall (inputs : list (Host * JetstreamEvent)) (now : string),
    forallb own_collection (events_of inputs) = true ->
    let s := stats (processEvents inputs (new_processor now)) in
    (forall (c : string) (n : Z),
       eventCounts s !! c = Some n ->
       c <> "" /\ 1 <= n /\ n = count_collection c (events_of inputs)) /\
    Z.of_nat (size (eventCounts s)) <= totalEvents s.
Proof.
  intros inputs now _ s. subst s.
  assert (Hinv : forall c n,
             eventCounts (stats (processEvents inputs (new_processor now)))
               !! c = Some n -> c <> "" /\ 1 <= n).
  { apply entries_named_and_positive. intros c n. simpl.
    rewrite lookup_empty. discriminate. }
  split.
  - intros c n Hc. destruct (Hinv c n Hc) as [Hne Hpos].
    repeat split; auto.
    pose proof (count_of_processEvents c inputs (new_processor now) Hne) as H.
    unfold count_of in H. rewrite Hc in H. simpl in H.
    rewrite lookup_empty in H. simpl in H. lia.
  - pose proof (size_le_sum_values _ (fun c n H => proj2 (Hinv c n H))) as Hs.
    pose proof (sum_eventCounts_processEvents inputs (new_processor now)) as Hsum.
    unfold sum_eventCounts in Hsum at 1. rewrite Hsum in Hs.
    destruct (totals_processEvents inputs (new_processor now)) as [_ ->].
    unfold count_commits.
    pose proof (filter_length_implied counted is_commit (events_of inputs)) as Hle.
    change (sum_eventCounts (stats (new_processor now))) with 0 in Hs.
    simpl totalEvents.
    enough (length (List.filter counted (events_of inputs))
            <= length (List.filter is_commit (events_of inputs)))%nat by lia.
    apply Hle. intros e. unfold counted. now intros [? _]%andb_prop.
Qed.

Lemma eventCounts_entries_are_named_and_counted_witness :
  forallb own_collection (events_of scenario) = true /\
  eventCounts (stats (processEvents scenario (new_processor epoch)))
    !! "app.bsky.feed.post" = Some 1 /\
  "app.bsky.feed.post" <> "" /\
  1 = count_collection "app.bsky.feed.post" (events_of scenario).
Proof.
  assert (Ho : forallb own_collection (events_of scenario) = true)
    by reflexivity.
  assert (H : eventCounts (stats (processEvents scenario (new_processor epoch)))
                !! "app.bsky.feed.post" = Some 1) by (vm_compute; reflexivity).
  destruct (proj1 (eventCounts_entries_are_named_and_counted scenario epoch Ho)
              "app.bsky.feed.post" 1 H) as (Hne & _ & Hn).
  split; [exact Ho|]. split; [exact H|]. split; [exact Hne | exact Hn].
Defined.

(** ** The store is written, never read, while events are processed *)

Lemma processEvents_same_stats inputs p1 p2 :
  stats p1 = stats p2 ->
  stats (processEvents inputs p1) = stats (processEvents inputs p2).
Proof.
  revert p1 p2. induction inputs as [|[h e] inputs IH]; intros p1 p2 H.
  - exact H.
  - rewrite !processEvents_cons. apply IH.
    now rewrite !stats_processEvent, H.
Qed.

Lemma console_processEvents inputs p1 p2 :
  stats p1 = stats p2 ->
  JETSTREAM_QUEUE p1 = JETSTREAM_QUEUE p2 ->
  console p1 = console p2 ->
  console (processEvents inputs p1) = console (processEvents inputs p2).
Proof.
  revert p1 p2. induction inputs as [|[h e] inputs IH]; intros p1 p2 Hs Hq Hc.
  - exact Hc.
  - rewrite !processEvents_cons. apply IH.
    + now rewrite !stats_processEvent, Hs.
    + rewrite (proj1 (queue_console_processEvent h e p1)),
        (proj1 (queue_console_processEvent h e p2)). now rewrite Hq.
    + destruct (is_commit e) eqn:Hk.
      * rewrite !(processEvent_commit h e _ Hk). simpl.
        now rewrite Hs, Hq, Hc.
      * rewrite !(processEvent_not_commit h e _ Hk). exact Hc.
Qed.

(** X5: [getStats] returns the stats in memory and writes them to the store;
    it is a read for the stream: the events processed after it leave the
    same stats, queue and console as without it. *)
Theorem getStats_flushes_and_does_not_disturb_the_stream :
  forall (inputs : list (Host * JetstreamEvent)) (p : JetstreamProcessor),
    snd (getStats p) = stats p /\
    storage (fst (getStats p)) = Some (stats p) /\
    stats (processEvents inputs (fst (getStats p)))
    = stats (processEvents inputs p) /\
    JETSTREAM_QUEUE (processEvents inputs (fst (getStats p)))
    = JETSTREAM_QUEUE (processEvents inputs p) /\
    console (processEvents inputs (fst (getStats p)))
    = console (processEvents inputs p).
Proof.
  intros inputs p. repeat split.
  - now apply processEvents_same_stats.
  - now rewrite !queue_processEvents.
  - now apply console_processEvents.
Qed.

(** X6: [resetStats] forgets the history of the stats but not the queue: the
    events processed after it give the stats they give from the zero
    record, whatever the state before, while the messages already queued
    and those queued afterwards are the same as without the reset. *)
Theorem resetStats_restarts_the_counts_and_keeps_the_queue :
  forall (inputs : list (Host * JetstreamEvent)) (now : string)
         (p : JetstreamProcessor),
    stats (processEvents inputs (resetStats now p))
    = stats (processEvents inputs (new_processor now)) /\
    JETSTREAM_QUEUE (processEvents inputs (resetStats now p))
    = JETSTREAM_QUEUE (processEvents inputs p).
Proof.
  intros inputs now p. split.
  - now apply processEvents_same_stats.
  - now rewrite !queue_processEvents.
Qed.

(** ** The message listener *)

Lemma on_messages_cons h data frames p :
  on_messages ((h, data) :: frames) p
  = on_messages frames (on_message h data p).
Proof. reflexivity. Qed.

Lemma processEvents_agree inputs p p' :
  stats p' = stats p ->
  storage p' = storage p ->
  JETSTREAM_QUEUE p' = JETSTREAM_QUEUE p ->
  stats (processEvents inputs p') = stats (processEvents inputs p) /\
  storage (processEvents inputs p') = storage (processEvents inputs p) /\
  JETSTREAM_QUEUE (processEvents inputs p')
  = JETSTREAM_QUEUE (processEvents inputs p).
Proof.
  revert p p'. induction inputs as [|[h e] l IH]; intros p p' Hs Hst Hq.
  - auto.
  - rewrite !processEvents_cons. apply IH.
    + now rewrite !stats_processEvent, Hs.
    + destruct (is_commit e) eqn:Hk.
      * rewrite !(processEvent_commit h e _ Hk). simpl.
        now rewrite Hs, Hst.
      * rewrite !(processEvent_not_commit h e _ Hk). exact Hst.
    + rewrite (proj1 (queue_console_processEvent h e p)),
        (proj1 (queue_console_processEvent h e p')). now rewrite Hq.
Qed.

Lemma on_messages_decoded frames p :
  stats (on_messages frames p) = stats (processEvents (decoded frames) p) /\
  storage (on_messages frames p) = storage (processEvents (decoded frames) p) /\
  JETSTREAM_QUEUE (on_messages frames p)
  = JETSTREAM_QUEUE (processEvents (decoded frames) p).
Proof.
  revert p. induction frames as [|[h [err| |e]] frames IH]; intros p.
  - auto.
  - rewrite on_messages_cons. simpl decoded.
    destruct (IH (on_message h (parse_throws err) p)) as (Hs & Hst & Hq).
    rewrite Hs, Hst, Hq. now apply processEvents_agree.
  - rewrite on_messages_cons. simpl decoded.
    destruct (IH (on_message h parsed_null p)) as (Hs & Hst & Hq).
    rewrite Hs, Hst, Hq. now apply processEvents_agree.
  - rewrite on_messages_cons. simpl decoded. rewrite processEvents_cons.
    apply IH.
Qed.

Lemma processEvent_logs_no_processing_error h e p :
  exists lines,
    console (processEvent h e p) = console p ++ lines /\
    List.filter is_processing_error lines = [].
Proof.
  destruct (is_commit e) eqn:Hk.
  - rewrite (processEvent_commit h e p Hk). simpl.
    eexists. split; [reflexivity|].
    rewrite List.filter_app. unfold track_collection, enqueue.
    destruct (commit e) as [c|]; [destruct (truthy (collection c))|];
      destruct (send_throws h); reflexivity.
  - rewrite (processEvent_not_commit h e p Hk). simpl.
    exists []. split; [now rewrite app_nil_r|reflexivity].
Qed.

Lemma on_messages_console frames p :
  exists lines,
    console (on_messages frames p) = console p ++ lines /\
    length (List.filter is_processing_error lines)
    = length (List.filter undecodable frames).
Proof.
  revert p. induction frames as [|[h data] frames IH]; intros p.
  - exists []. split; [now rewrite app_nil_r|reflexivity].
  - rewrite on_messages_cons.
    destruct (IH (on_message h data p)) as (lines & Hc & Hn).
    assert (H1 : exists l1,
               console (on_message h data p) = console p ++ l1 /\
               length (List.filter is_processing_error l1)
               = if undecodable (h, data) then 1%nat else 0%nat).
    { destruct data as [err| |e]; simpl.
      - eexists. split; reflexivity.
      - eexists. split; reflexivity.
      - destruct (processEvent_logs_no_processing_error h e p)
          as (l1 & Hl1 & Hf). exists l1. now rewrite Hf. }
    destruct H1 as (l1 & Hl1 & Hn1).
    exists (l1 ++ lines). split.
    + now rewrite Hc, Hl1, <- app_assoc.
    + rewrite List.filter_app, length_app, Hn, Hn1. simpl List.filter.
      destruct (undecodable (h, data)); reflexivity.
Qed.

(** X7: A frame on which [JSON.parse] throws, or which parses to [null],
    is logged with [console.error] and dropped: over a stream of frames
    handled in turn, the console gains one "Error processing Jetstream
    event:" line for each such frame, while the stats, the store and the
    queue are those the frames that are events alone produce, in the same
    order; such a frame is not counted in [totalReceived], and the frames
    after it are still processed. *)
Theorem undecodable_frames_are_skipped :
  forall (frames : list (Host * Parsed)) (p : JetstreamProcessor),
    stats (on_messages frames p) = stats (processEvents (decoded frames) p) /\
    storage (on_messages frames p)
    = storage (processEvents (decoded frames) p) /\
    JETSTREAM_QUEUE (on_messages frames p)
    = JETSTREAM_QUEUE (processEvents (decoded frames) p) /\
    totalReceived (stats (on_messages frames p))
    = totalReceived (stats p) + Z.of_nat (length (decoded frames)) /\
    exists lines,
      console (on_messages frames p) = console p ++ lines /\
      length (List.filter is_processing_error lines)
      = length (List.filter undecodable frames).
Proof.
  intros frames p.
  destruct (on_messages_decoded frames p) as (Hs & Hst & Hq).
  split; [exact Hs|]. split; [exact Hst|]. split; [exact Hq|]. split.
  - rewrite Hs. apply totals_processEvents.
  - apply on_messages_console.
Qed.

(** ** What a restart loses *)

Lemma flushed_processEvent h e p :
  flushed_since_last_hundred p ->
  flushed_since_last_hundred (processEvent h e p).
Proof.
  unfold flushed_since_last_hundred, stored_totalEvents.
  intros (H0 & Hle & Hge).
  destruct (is_commit e) eqn:Hk.
  - rewrite (processEvent_commit h e p Hk). simpl.
    rewrite (proj1 (proj2 (track_collection_scalars e _))). simpl.
    set (t := totalEvents (stats p)) in *.
    unfold js_rem. rewrite Z.rem_mod_nonneg by lia.
    destruct (Z.eqb_spec ((t + 1) mod 100) 0) as [Hm|Hm]; simpl.
    + rewrite (proj1 (proj2 (track_collection_scalars e _))). simpl.
      pose proof (Z.mul_div_le (t + 1) 100). lia.
    + assert ((t + 1) / 100 = t / 100) as ->.
      { clear -Hm H0. Z.div_mod_to_equations. lia. }
      destruct (storage p); lia.
  - rewrite (processEvent_not_commit h e p Hk). simpl. auto.
Qed.

Lemma flushed_step d x :
  handled_in_turn x = true ->
  flushed_since_last_hundred (processor d) ->
  flushed_since_last_hundred (processor (step d x)).
Proof.
  intros Hx H.
  destruct x as [i|i h [err| |e]|i r|i r|th r| |now|th r|i h e|h e];
    simpl; try exact H; try discriminate Hx.
  - apply flushed_processEvent, H.
  - destruct H as (H0 & _). unfold flushed_since_last_hundred,
      stored_totalEvents. simpl.
    pose proof (Z.mul_div_le (totalEvents (stats (processor d))) 100). lia.
  - unfold flushed_since_last_hundred, stored_totalEvents. simpl.
    pose proof (Z.mul_div_le 0 100). lia.
Qed.

Lemma flushed_run inputs d :
  forallb handled_in_turn inputs = true ->
  flushed_since_last_hundred (processor d) ->
  flushed_since_last_hundred (processor (run inputs d)).
Proof.
  revert d. induction inputs as [|x inputs IH]; intros d Hall H; [exact H|].
  simpl in Hall. apply andb_prop in Hall as [Hx Hall].
  apply (IH (step d x) Hall), flushed_step; [exact Hx|exact H].
Qed.

(** X8: As long as every listener runs to its end before the next input is
    handled (no listener is suspended at [await send] while another frame
    arrives), whatever reaches the object after it started (frames,
    socket events, timers, [getStats], [resetStats], [forceReconnect]),
    the record in the store is fewer than 100 commit events behind the
    stats in memory and never ahead of them: an instance restarted at that
    point resumes with a [totalEvents] in (t - 100, t], where t is the
    value lost. *)
Theorem restart_loses_fewer_than_100_commit_counts :
  forall (now now' : string) (throws : bool) (random : R)
         (stored : option StoredStats) (q : list QueueMessage)
         (inputs : list Input),
    (forall s, stored = Some s -> 0 <= totalEvents s) ->
    forallb handled_in_turn inputs = true ->
    let d := run inputs (start now throws random stored q) in
    let t := totalEvents (stats (processor d)) in
    let t' := totalEvents (stats (restart now' (processor d))) in
    t - 100 < t' <= t.
Proof.
  intros now now' throws random stored q inputs Hstored Hturn d t t'.
  assert (H : flushed_since_last_hundred (processor d)).
  { apply flushed_run; [exact Hturn|]. unfold flushed_since_last_hundred,
      stored_totalEvents, start. simpl.
    destruct stored as [s|]; simpl.
    - pose proof (Hstored s eq_refl).
      pose proof (Z.mul_div_le (totalEvents s) 100). lia.
    - pose proof (Z.mul_div_le 0 100). lia. }
  destruct H as (H0 & Hle & Hge). fold t in H0, Hle, Hge.
  assert (Ht' : t' = stored_totalEvents (processor d)).
  { subst t'. unfold restart, initializeProcessor, stored_totalEvents. simpl.
    destruct (storage (processor d)); reflexivity. }
  rewrite Ht'.
  pose proof (Z.div_mod t 100). pose proof (Z.mod_pos_bound t 100). lia.
Qed.

Lemma restart_loses_fewer_than_100_commit_counts_witness :
  let stored := Some (stats_with_cursor 7000000) in
  let inputs := hundred_commits
                ++ [ws_message 0 host_ok
                      (parsed_event (commit_event 200 "blue.2048.game"))] in
  let d := run inputs (start epoch false 0%R stored []) in
  (forall s, stored = Some s -> 0 <= totalEvents s) /\
  forallb handled_in_turn inputs = true /\
  totalEvents (stats (processor d)) - 100
  < totalEvents (stats (restart epoch (processor d)))
  <= totalEvents (stats (processor d)).
Proof.
  intros stored inputs d.
  assert (H : forall s, stored = Some s -> 0 <= totalEvents s).
  { intros s Hs. injection Hs as <-. simpl. lia. }
  assert (Ht : forallb handled_in_turn inputs = true) by reflexivity.
  split; [exact H|]. split; [exact Ht|].
  exact (restart_loses_fewer_than_100_commit_counts epoch epoch false 0%R
           stored [] inputs H Ht).
Defined.

Lemma stats_processEvent_until_send h e p :
  stats (processEvent_until_send h e p)
  = stats_after (now_lastEventTime h) e (stats p) /\
  storage (processEvent_until_send h e p) = storage p /\
  JETSTREAM_QUEUE (processEvent_until_send h e p)
  = JETSTREAM_QUEUE (processEvent h e p).
Proof.
  rewrite (proj1 (queue_console_processEvent h e p)).
  unfold processEvent_until_send, stats_after, accepted_commit, is_commit.
  simpl. destruct (Kind.eqb (kind e) Kind.commit); simpl.
  - destruct (track_collection e _) as [s log1]. simpl. unfold enqueue.
    destruct (send_throws h); simpl; rewrite ?app_nil_r; auto.
  - now rewrite app_nil_r.
Qed.

Lemma processEvent_in_two_steps h e p :
  is_commit e = true ->
  processEvent h e p
  = processEvent_after_send h e (processEvent_until_send h e p).
Proof.
  intros Hk. rewrite (processEvent_commit h e p Hk).
  unfold processEvent_after_send, processEvent_until_send.
  fold (is_commit e). rewrite Hk. simpl.
  destruct (track_collection e _) as [s log1]. simpl.
  unfold enqueue. destruct (send_throws h); simpl; now rewrite <- app_assoc.
Qed.

(** X20: The stats are flushed by the listener of the commit event that
    brings [totalEvents] to a multiple of 100 only if that listener
    resumes from [await send] before the next commit event is handled.
    Handled in turn, the two phases of a listener make up [processEvent]
    and the hundredth event writes the store; with the next commit event
    handled while the first listener is suspended, both listeners find
    [totalEvents] past the multiple when they resume and neither writes:
    stats and queue are the same as in turn, the store is left as it
    was. *)
Theorem listener_suspended_at_send_skips_the_flush :
  forall (h1 h2 : Host) (e1 e2 : JetstreamEvent) (p : JetstreamProcessor),
    is_commit e1 = true ->
    is_commit e2 = true ->
    0 <= totalEvents (stats p) ->
    (totalEvents (stats p) + 1) mod 100 = 0 ->
    let in_turn :=
      processEvent_after_send h2 e2
        (processEvent_until_send h2 e2
           (processEvent_after_send h1 e1
              (processEvent_until_send h1 e1 p))) in
    let interleaved :=
      processEvent_after_send h2 e2
        (processEvent_after_send h1 e1
           (processEvent_until_send h2 e2
              (processEvent_until_send h1 e1 p))) in
    in_turn = processEvent h2 e2 (processEvent h1 e1 p) /\
    stats interleaved = stats in_turn /\
    JETSTREAM_QUEUE interleaved = JETSTREAM_QUEUE in_turn /\
    storage in_turn = Some (stats (processEvent h1 e1 p)) /\
    storage interleaved = storage p.
Proof.
  intros h1 h2 e1 e2 p Hk1 Hk2 H0 Hm in_turn interleaved.
  assert (Hturn : in_turn = processEvent h2 e2 (processEvent h1 e1 p)).
  { subst in_turn. now rewrite <- !processEvent_in_two_steps. }
  pose proof (totalEvents_processEvent h1 e1 p) as Ht1.
  pose proof (totalEvents_processEvent h2 e2 (processEvent h1 e1 p)) as Ht2.
  rewrite Hk1 in Ht1. rewrite Hk2, Ht1 in Ht2.
  set (p1 := processEvent_until_send h1 e1 p).
  set (p2 := processEvent_until_send h2 e2 p1).
  destruct (stats_processEvent_until_send h1 e1 p) as (Hs1 & Hst1 & Hq1).
  destruct (stats_processEvent_until_send h2 e2 p1) as (Hs2 & Hst2 & Hq2).
  fold p1 in Hs1, Hst1, Hq1. fold p2 in Hs2, Hst2, Hq2.
  assert (Hstats : stats p2 = stats (processEvent h2 e2 (processEvent h1 e1 p))).
  { now rewrite Hs2, Hs1, !stats_processEvent. }
  assert (Hrem : (js_rem (totalEvents (stats p2)) 100 =? 0) = false).
  { rewrite Hstats, Ht2. unfold js_rem. rewrite Z.rem_mod_nonneg by lia.
    apply Z.eqb_neq. clear -Hm H0. Z.div_mod_to_equations. lia. }
  split; [exact Hturn|]. rewrite Hturn. subst interleaved.
  fold p1. fold p2. unfold processEvent_after_send. simpl. rewrite Hrem.
  split; [exact Hstats|]. split; [|split].
  - rewrite Hq2.
    rewrite (proj1 (queue_console_processEvent h2 e2 p1)),
      (proj1 (queue_console_processEvent h2 e2 (processEvent h1 e1 p))).
    now rewrite Hq1.
  - rewrite (processEvent_commit h2 e2 _ Hk2). simpl.
    rewrite (proj1 (proj2 (track_collection_scalars e2 _))). simpl.
    rewrite Ht1. unfold js_rem at 1. rewrite Z.rem_mod_nonneg by lia.
    assert (((totalEvents (stats p) + 1 + 1) mod 100 =? 0) = false) as ->.
    { apply Z.eqb_neq. clear -Hm H0. Z.div_mod_to_equations. lia. }
    rewrite (processEvent_commit h1 e1 _ Hk1). simpl.
    rewrite (proj1 (proj2 (track_collection_scalars e1 _))). simpl.
    unfold js_rem. rewrite Z.rem_mod_nonneg by lia.
    apply Z.eqb_eq in Hm. now rewrite Hm.
  - now rewrite Hst2, Hst1.
Qed.

Lemma listener_suspended_at_send_skips_the_flush_witness :
  let e1 := commit_event 100 "work.doing.status" in
  let e2 := commit_event 200 "work.doing.status" in
  let p := after_99_commits in
  is_commit e1 = true /\ is_commit e2 = true /\
  0 <= totalEvents (stats p) /\
  (totalEvents (stats p) + 1) mod 100 = 0 /\
  storage (processEvent_after_send host_ok e2
             (processEvent_after_send host_ok e1
                (processEvent_until_send host_ok e2
                   (processEvent_until_send host_ok e1 p)))) = None /\
  totalEvents (stats (processEvent host_ok e2 (processEvent host_ok e1 p)))
  = 101.
Proof.
  intros e1 e2 p.
  assert (H0 : 0 <= totalEvents (stats p)) by (simpl; lia).
  assert (Hm : (totalEvents (stats p) + 1) mod 100 = 0) by reflexivity.
  destruct (listener_suspended_at_send_skips_the_flush host_ok host_ok
              e1 e2 p eq_refl eq_refl H0 Hm) as (_ & _ & _ & _ & Hst).
  split; [reflexivity|]. split; [reflexivity|]. split; [exact H0|].
  split; [exact Hm|]. split; [exact Hst|]. reflexivity.
Defined.

(** X9: A flush followed by a restart is a round trip for the stats: the new
    instance holds exactly the record that [getStats] wrote, its first
    connection is opened with the URL of that record, and the events it
    then processes give the stats the lost instance would have reached. *)
Theorem getStats_then_restart_restores_the_stats :
  forall (now : string) (random : R) (p : JetstreamProcessor)
         (inputs : list (Host * JetstreamEvent)),
    let p' := restart now (fst (getStats p)) in
    let d := start now false random (storage (fst (getStats p)))
               (JETSTREAM_QUEUE p) in
    stats p' = stats p /\
    processor d = p' /\
    ws_url <$> Connection.sockets (connection d) = [subscribe_url (stats p)] /\
    stats (processEvents inputs p') = stats (processEvents inputs p) /\
    JETSTREAM_QUEUE (processEvents inputs p')
    = JETSTREAM_QUEUE (processEvents inputs p).
Proof.
  intros now random p inputs p' d. subst p' d.
  split; [reflexivity|]. split; [reflexivity|]. split; [reflexivity|].
  split.
  - now apply processEvents_same_stats.
  - now rewrite !queue_processEvents.
Qed.

(** ** The connection *)

Lemma Connection_scheduleReconnect_eq random c :
  Connection.scheduleReconnect random c
  = if Connection.pending c then c
    else {| Connection.websocket := Connection.websocket c;
            Connection.reconnectTimeout := Some (reconnect_delay random);
            Connection.sockets := Connection.sockets c |}.
Proof.
  unfold Connection.scheduleReconnect, scheduleReconnect.
  destruct (Connection.pending c); reflexivity.
Qed.

Lemma Connection_scheduleReconnect_pending random c :
  Connection.pending (Connection.scheduleReconnect random c) = true.
Proof.
  rewrite Connection_scheduleReconnect_eq.
  destruct (Connection.pending c) eqn:Hp; [exact Hp|reflexivity].
Qed.

Lemma Connection_scheduleReconnect_keeps random c :
  Connection.websocket (Connection.scheduleReconnect random c)
  = Connection.websocket c /\
  Connection.sockets (Connection.scheduleReconnect random c)
  = Connection.sockets c.
Proof.
  rewrite Connection_scheduleReconnect_eq.
  destruct (Connection.pending c); auto.
Qed.

Lemma Connection_scheduleReconnect_idem r1 r2 c :
  Connection.scheduleReconnect r2 (Connection.scheduleReconnect r1 c)
  = Connection.scheduleReconnect r1 c.
Proof.
  rewrite (Connection_scheduleReconnect_eq r2).
  now rewrite Connection_scheduleReconnect_pending.
Qed.

(** X10: A socket that fails raises "error" and then "close"; both handlers
    call [scheduleReconnect], and the guard on [reconnectTimeout] makes the
    second call a no-op: whatever the state, after the two events the
    handle is dropped and the timer pending is the one the first event
    set (or the one that was already pending), with its delay. *)
Theorem error_then_close_schedules_one_reconnect :
  forall (i : nat) (r1 r2 : R) (c : Connection.t),
    let c1 := Connection.on_error i r1 c in
    let c2 := Connection.on_close i r2 c1 in
    Connection.websocket c2 = None /\
    Connection.pending c1 = true /\
    Connection.reconnectTimeout c2 = Connection.reconnectTimeout c1 /\
    Connection.reconnectTimeout c1
    = match Connection.reconnectTimeout c with
      | Some delay => Some delay
      | None => Some (reconnect_delay r1)
      end.
Proof.
  intros i r1 r2 c c1 c2. subst c1 c2.
  unfold Connection.on_close, Connection.on_error.
  set (c0 := Connection.set_websocket None c).
  assert (Hp1 : Connection.pending (Connection.scheduleReconnect r1 c0) = true)
    by apply Connection_scheduleReconnect_pending.
  split; [|split; [exact Hp1|split]].
  - now rewrite (proj1 (Connection_scheduleReconnect_keeps r2 _)).
  - rewrite (Connection_scheduleReconnect_eq r2).
    assert (Connection.pending
              (Connection.set_websocket None
                 (Connection.set_readyState i ReadyState.CLOSED
                    (Connection.scheduleReconnect r1 c0))) = true) as ->.
    { exact Hp1. }
    reflexivity.
  - rewrite Connection_scheduleReconnect_eq. subst c0.
    unfold Connection.pending. simpl.
    destruct (Connection.reconnectTimeout c) eqn:Ht; simpl;
      [exact Ht|reflexivity].
Qed.

Lemma reconnect_delay_range r :
  (0 <= r < 1)%R -> (1000 <= reconnect_delay r < 2000)%R.
Proof.
  intros Hr. pose proof (Rpower_2_unit_interval r Hr) as [Hlo Hhi].
  unfold reconnect_delay, baseDelay, maxDelay.
  rewrite Rmin_left by lra. lra.
Qed.

Lemma delay_in_range_scheduleReconnect r c :
  (0 <= r < 1)%R -> delay_in_range c ->
  delay_in_range (Connection.scheduleReconnect r c).
Proof.
  intros Hr Hc. rewrite Connection_scheduleReconnect_eq.
  destruct (Connection.pending c); [exact Hc|].
  intros delay [= <-]. now apply reconnect_delay_range.
Qed.

Lemma delay_in_range_same c c' :
  Connection.reconnectTimeout c' = Connection.reconnectTimeout c
  \/ Connection.reconnectTimeout c' = None ->
  delay_in_range c -> delay_in_range c'.
Proof.
  intros [H|H] Hc delay Hd; rewrite H in Hd; [now apply Hc|discriminate].
Qed.

Lemma delay_in_range_clear c :
  delay_in_range c -> delay_in_range (Connection.clear_reconnectTimeout c).
Proof.
  unfold Connection.clear_reconnectTimeout.
  destruct (Connection.pending c); [|auto].
  apply delay_in_range_same. now right.
Qed.

Lemma delay_in_range_connect throws r s c :
  (0 <= r < 1)%R -> delay_in_range c ->
  delay_in_range (Connection.connectToJetstream throws r s c).
Proof.
  intros Hr Hc. unfold Connection.connectToJetstream. destruct throws.
  - now apply delay_in_range_scheduleReconnect.
  - exact Hc.
Qed.

Lemma delay_in_range_step d x :
  unit_draw x -> delay_in_range (connection d) ->
  delay_in_range (connection (step d x)).
Proof.
  intros Hx Hc.
  destruct x as [i|i h data|i r|i r|th r| |now|th r|i h e|h e]; simpl in *;
    try exact Hc.
  - apply delay_in_range_clear. exact Hc.
  - apply delay_in_range_scheduleReconnect; [exact Hx|exact Hc].
  - apply delay_in_range_scheduleReconnect; [exact Hx|exact Hc].
  - unfold Connection.on_timer. destruct (Connection.pending _); [|exact Hc].
    apply delay_in_range_connect; [exact Hx|]. intros delay Hd. discriminate.
  - unfold Connection.forceReconnect.
    apply delay_in_range_connect; [exact Hx|].
    apply delay_in_range_clear.
    destruct (Connection.websocket (connection d)); exact Hc.
Qed.

(** X11: With draws of [Math.random] in [0, 1), whatever reaches the object
    after it started, the reconnect timer that is pending, if any, was set
    with a delay of at least 1000 ms and less than 2000 ms: failures that
    repeat do not lengthen the delay. *)
Theorem every_reconnect_is_scheduled_within_two_seconds :
  forall (now : string) (throws : bool) (random : R)
         (stored : option StoredStats) (q : list QueueMessage)
         (inputs : list Input) (delay : R),
    (0 <= random < 1)%R ->
    Forall unit_draw inputs ->
    Connection.reconnectTimeout
      (connection (run inputs (start now throws random stored q)))
    = Some delay ->
    (1000 <= delay < 2000)%R.
Proof.
  intros now throws random stored q inputs delay Hr Hall.
  assert (H0 : delay_in_range
                 (connection (start now throws random stored q))).
  { unfold start. simpl. apply delay_in_range_connect; [exact Hr|].
    intros d' Hd'. discriminate. }
  revert H0. generalize (start now throws random stored q).
  induction Hall as [|x inputs Hx Hall IH]; intros d Hd.
  - apply Hd.
  - simpl. apply IH. now apply delay_in_range_step.
Qed.

Lemma every_reconnect_is_scheduled_within_two_seconds_witness :
  (0 <= 0 < 1)%R /\
  Forall unit_draw [ws_error 0 0%R; ws_close 0 0%R] /\
  (1000 <= reconnect_delay 0 < 2000)%R.
Proof.
  assert (Hr : (0 <= 0 < 1)%R) by lra.
  assert (Hall : Forall unit_draw [ws_error 0 0%R; ws_close 0 0%R]).
  { repeat constructor; simpl; lra. }
  split; [exact Hr|]. split; [exact Hall|].
  apply (every_reconnect_is_scheduled_within_two_seconds
           epoch false 0%R None [] [ws_error 0 0%R; ws_close 0 0%R]
           (reconnect_delay 0) Hr Hall).
  reflexivity.
Defined.

Lemma WebSocket_close_not_open ws :
  ReadyState.eqb (readyState (WebSocket_close ws)) ReadyState.OPEN = false.
Proof. unfold WebSocket_close. destruct (readyState ws) eqn:H; simpl; now rewrite ?H. Qed.

Lemma forceReconnect_connects r s c :
  let closed :=
    match Connection.websocket c with
    | Some i => alter WebSocket_close i (Connection.sockets c)
    | None => Connection.sockets c
    end in
  Connection.forceReconnect false r s c
  = {| Connection.websocket := Some (length (Connection.sockets c));
       Connection.reconnectTimeout := None;
       Connection.sockets :=
         closed ++ [{| ws_url := subscribe_url s;
                       readyState := ReadyState.CONNECTING |}] |}.
Proof.
  unfold Connection.forceReconnect, Connection.connectToJetstream,
    Connection.clear_reconnectTimeout, Connection.pending.
  destruct (Connection.websocket c) as [i|];
    destruct (Connection.reconnectTimeout c) as [d|] eqn:Ht; simpl;
    rewrite ?length_alter, ?Ht; reflexivity.
Qed.

(** X12: [forceReconnect], when the new socket can be created: the handle is
    the fresh socket, which is connecting to the URL of the current stats;
    no timer is left pending; the socket referenced before was closed; the
    status reads "not connected, readyState 0" until the "open" event of
    the fresh socket, and "connected, readyState 1" after it. *)
Theorem forceReconnect_replaces_the_connection :
  forall (r : R) (s : StoredStats) (c : Connection.t),
    let fresh := length (Connection.sockets c) in
    let c' := Connection.forceReconnect false r s c in
    Connection.websocket c' = Some fresh /\
    Connection.sockets c' !! fresh
    = Some {| ws_url := subscribe_url s;
              readyState := ReadyState.CONNECTING |} /\
    Connection.reconnectTimeout c' = None /\
    Connection.getConnectionStatus c' = (false, Some 0) /\
    Connection.getConnectionStatus (Connection.on_open fresh c')
    = (true, Some 1) /\
    (forall (i : nat) (ws : WebSocket),
       Connection.websocket c = Some i ->
       Connection.sockets c !! i = Some ws ->
       Connection.sockets c' !! i = Some (WebSocket_close ws)).
Proof.
  intros r s c fresh c'. subst c'. rewrite forceReconnect_connects.
  set (closed := match Connection.websocket c with
                 | Some i => alter WebSocket_close i (Connection.sockets c)
                 | None => Connection.sockets c
                 end).
  assert (Hlen : length closed = fresh).
  { subst closed fresh. destruct (Connection.websocket c);
      [apply length_alter|reflexivity]. }
  assert (Hnew : forall ws : WebSocket, (closed ++ [ws]) !! fresh = Some ws).
  { intros ws. rewrite <- Hlen. apply list_lookup_middle. reflexivity. }
  simpl. split; [reflexivity|]. split; [apply Hnew|].
  split; [reflexivity|]. split; [|split].
  - unfold Connection.getConnectionStatus, Connection.handle_readyState.
    simpl. now rewrite Hnew.
  - unfold Connection.getConnectionStatus, Connection.handle_readyState,
      Connection.on_open, Connection.clear_reconnectTimeout,
      Connection.set_readyState, Connection.pending. simpl.
    now rewrite list_lookup_alter_eq, Hnew.
  - intros i ws Hi Hws. subst closed. rewrite Hi.
    rewrite lookup_app_l.
    + now rewrite list_lookup_alter_eq, Hws.
    + rewrite length_alter. now apply lookup_lt_Some in Hws.
Qed.

Lemma forceReconnect_replaces_the_connection_witness :
  let c := Connection.connectToJetstream false 0%R (stats_with_cursor 0)
             Connection.initial in
  let ws := {| ws_url := subscribe_url (stats_with_cursor 0);
               readyState := ReadyState.CONNECTING |} in
  let c' := Connection.forceReconnect false 0%R (stats_with_cursor 7000000) c in
  Connection.websocket c = Some 0%nat /\
  Connection.sockets c !! 0%nat = Some ws /\
  Connection.sockets c' !! 0%nat = Some (WebSocket_close ws) /\
  Connection.websocket c' = Some 1%nat.
Proof.
  intros c ws c'.
  assert (Hw : Connection.websocket c = Some 0%nat) by reflexivity.
  assert (Hs : Connection.sockets c !! 0%nat = Some ws) by reflexivity.
  destruct (forceReconnect_replaces_the_connection
              0%R (stats_with_cursor 7000000) c)
    as (Hnew & _ & _ & _ & _ & Hold).
  split; [exact Hw|]. split; [exact Hs|].
  split; [exact (Hold 0%nat ws Hw Hs) | exact Hnew].
Defined.

(** X13: [forceReconnect], when [new WebSocket] throws: the object keeps the
    handle of the socket it has just closed, no socket is created, the
    status reads "not connected", and the timer pending afterwards is the
    one this call set (a timer pending before was cancelled first). *)
Theorem forceReconnect_that_cannot_connect_schedules_a_reconnect :
  forall (r : R) (s : StoredStats) (c : Connection.t),
    let c' := Connection.forceReconnect true r s c in
    Connection.websocket c' = Connection.websocket c /\
    length (Connection.sockets c') = length (Connection.sockets c) /\
    Connection.reconnectTimeout c' = Some (reconnect_delay r) /\
    fst (Connection.getConnectionStatus c') = false.
Proof.
  intros r s c c'. subst c'.
  unfold Connection.forceReconnect, Connection.connectToJetstream.
  set (c1 := match Connection.websocket c with
             | Some i => _
             | None => c
             end).
  assert (H1 : Connection.websocket c1 = Connection.websocket c /\
               length (Connection.sockets c1) = length (Connection.sockets c)).
  { subst c1. destruct (Connection.websocket c) eqn:Hw; simpl;
      rewrite ?length_alter; auto. }
  assert (Hstatus : match Connection.handle_readyState c1 with
                    | Some st => ReadyState.eqb st ReadyState.OPEN
                    | None => false
                    end = false).
  { subst c1. unfold Connection.handle_readyState.
    destruct (Connection.websocket c) as [i|] eqn:Hw; simpl;
      [|now rewrite ?Hw].
    rewrite ?Hw. simpl. rewrite list_lookup_alter_eq.
    destruct (Connection.sockets c !! i) as [ws|]; simpl; [|reflexivity].
    apply WebSocket_close_not_open. }
  destruct H1 as [Hw Hl].
  rewrite Connection_scheduleReconnect_eq.
  assert (Hp : Connection.pending (Connection.clear_reconnectTimeout c1)
               = false).
  { unfold Connection.clear_reconnectTimeout.
    destruct (Connection.pending c1) eqn:Hp; [reflexivity|exact Hp]. }
  rewrite Hp.
  assert (Hk : Connection.websocket (Connection.clear_reconnectTimeout c1)
               = Connection.websocket c1 /\
               Connection.sockets (Connection.clear_reconnectTimeout c1)
               = Connection.sockets c1).
  { unfold Connection.clear_reconnectTimeout.
    destruct (Connection.pending c1); auto. }
  destruct Hk as [Hkw Hks].
  unfold Connection.getConnectionStatus, Connection.handle_readyState in *.
  simpl. rewrite Hkw, Hks, Hw, Hl.
  repeat split. rewrite Hw in Hstatus. exact Hstatus.
Qed.

(** X14: [forceReconnect] closes the socket it replaces but that socket keeps
    its listeners.  When its "close" event arrives after the call, the
    handler drops the handle, which by then refers to the new socket,
    and schedules a reconnect: the status reads "not connected" although
    the new socket is still connecting, and once the timer fires a second
    socket is opened beside it, so that two sockets are connecting or open
    while only the later one is referenced. *)
Theorem close_event_of_a_replaced_socket_orphans_the_new_one :
  forall (r r' r'' : R) (s s' : StoredStats) (c : Connection.t) (i : nat),
    Connection.websocket c = Some i ->
    (i < length (Connection.sockets c))%nat ->
    let fresh := length (Connection.sockets c) in
    let c1 := Connection.forceReconnect false r s c in
    let c2 := Connection.on_close i r' c1 in
    let c3 := Connection.on_timer false r'' s' c2 in
    Connection.websocket c1 = Some fresh /\
    Connection.websocket c2 = None /\
    Connection.reconnectTimeout c2 = Some (reconnect_delay r') /\
    Connection.getConnectionStatus c2 = (false, None) /\
    readyState <$> Connection.sockets c2 !! fresh
    = Some ReadyState.CONNECTING /\
    Connection.websocket c3 = Some (S fresh) /\
    readyState <$> Connection.sockets c3 !! fresh
    = Some ReadyState.CONNECTING /\
    readyState <$> Connection.sockets c3 !! S fresh
    = Some ReadyState.CONNECTING /\
    (2 <= length (Connection.live c3))%nat.
Proof.
  intros r r' r'' s s' c i Hi Hlt fresh c1 c2 c3.
  subst c3 c2 c1. rewrite forceReconnect_connects, Hi.
  set (new := {| ws_url := subscribe_url s;
                 readyState := ReadyState.CONNECTING |}).
  set (new' := {| ws_url := subscribe_url s';
                  readyState := ReadyState.CONNECTING |}).
  set (closed := alter WebSocket_close i (Connection.sockets c)).
  assert (Hlen : length closed = fresh) by apply length_alter.
  unfold Connection.on_close, Connection.on_timer.
  rewrite Connection_scheduleReconnect_eq. simpl.
  unfold Connection.connectToJetstream. simpl.
  assert (Hsock : alter (WebSocket_set ReadyState.CLOSED) i (closed ++ [new])
                  = alter (WebSocket_set ReadyState.CLOSED) i closed ++ [new]).
  { apply alter_app_l. lia. }
  rewrite Hsock.
  set (closed' := alter (WebSocket_set ReadyState.CLOSED) i closed).
  assert (Hlen' : length closed' = fresh).
  { subst closed'. now rewrite length_alter. }
  assert (Hfresh : (closed' ++ [new]) !! fresh = Some new).
  { rewrite <- Hlen'. apply list_lookup_middle. reflexivity. }
  split; [reflexivity|]. split; [reflexivity|]. split; [reflexivity|].
  split; [reflexivity|]. split; [now rewrite Hfresh|].
  split; [rewrite length_app, Hlen'; simpl; f_equal; lia|].
  split; [|split].
  - rewrite lookup_app_l by (rewrite length_app, Hlen'; simpl; lia).
    now rewrite Hfresh.
  - assert (S fresh = length (closed' ++ [new])) as ->
      by (rewrite length_app, Hlen'; simpl; lia).
    now rewrite list_lookup_middle.
  - unfold Connection.live. simpl.
    rewrite !List.filter_app, !length_app. simpl. lia.
Qed.

Lemma close_event_of_a_replaced_socket_orphans_the_new_one_witness :
  let c := Connection.connectToJetstream false 0%R (stats_with_cursor 0)
             Connection.initial in
  let c1 := Connection.forceReconnect false 0%R (stats_with_cursor 0) c in
  let c2 := Connection.on_close 0 0%R c1 in
  let c3 := Connection.on_timer false 0%R (stats_with_cursor 0) c2 in
  Connection.websocket c = Some 0%nat /\
  (0 < length (Connection.sockets c))%nat /\
  Connection.websocket c2 = None /\
  (2 <= length (Connection.live c3))%nat.
Proof.
  intros c c1 c2 c3.
  assert (Hw : Connection.websocket c = Some 0%nat) by reflexivity.
  assert (Hl : (0 < length (Connection.sockets c))%nat) by (simpl; lia).
  destruct (close_event_of_a_replaced_socket_orphans_the_new_one
              0%R 0%R 0%R (stats_with_cursor 0) (stats_with_cursor 0)
              c 0%nat Hw Hl) as (_ & H2 & _ & _ & _ & _ & _ & _ & Hlive).
  split; [exact Hw|]. split; [exact Hl|]. split; [exact H2 | exact Hlive].
Defined.

(** ** The subscription URL *)

(** X15: Whatever the stats, the URL is the subscribe endpoint with the two
    collection filters, in the order of the source, and at most one
    parameter more; a stored cursor that is 0 or negative adds none. *)
Theorem subscribe_url_always_filters_and_skips_nonpositive_cursors :
  forall s : StoredStats,
    href_base (subscribe_url s)
    = "wss://jetstream1.us-west.bsky.network/subscribe" /\
    URLSearchParams.getAll "wantedCollections" (searchParams (subscribe_url s))
    = ["work.doing.*"; "blue.2048.*"] /\
    (length (searchParams (subscribe_url s)) <= 3)%nat /\
    (cursor s <= 0 ->
     URLSearchParams.has "cursor" (searchParams (subscribe_url s)) = false /\
     searchParams (subscribe_url s)
     = [("wantedCollections", "work.doing.*");
        ("wantedCollections", "blue.2048.*")]).
Proof.
  intros s. rewrite subscribe_url_params.
  split.
  - unfold subscribe_url. destruct (0 <? cursor s); reflexivity.
  - destruct (0 <? cursor s) eqn:Hc.
    + apply Z.ltb_lt in Hc. split; [reflexivity|].
      split; [simpl; lia|]. intros Hle. lia.
    + split; [reflexivity|]. split; [simpl; lia|]. intros _.
      split; reflexivity.
Qed.

Lemma subscribe_url_always_filters_and_skips_nonpositive_cursors_witness :
  cursor (stats_with_cursor (-5)) <= 0 /\
  URLSearchParams.has "cursor"
    (searchParams (subscribe_url (stats_with_cursor (-5)))) = false.
Proof.
  assert (H : cursor (stats_with_cursor (-5)) <= 0) by (simpl; lia).
  split; [exact H|].
  exact (proj1 (proj2 (proj2 (proj2
           (subscribe_url_always_filters_and_skips_nonpositive_cursors
              (stats_with_cursor (-5))))) H)).
Defined.

(** X16: A connection made after a stream of events resumes five seconds
    before the last event received, whatever its kind and whatever came
    before it: when that event's [time_us] is an integer above 0 and up to
    2^53 the [cursor] parameter is the decimal numeral of the [time_us]
    minus 5,000,000, and when it is 0 or negative the parameter is
    absent. *)
Theorem reconnect_resumes_five_seconds_before_the_last_event :
  forall (h : Host) (e : JetstreamEvent)
         (inputs : list (Host * JetstreamEvent)) (p : JetstreamProcessor),
    let url := subscribe_url (stats (processEvents ((h, e) :: inputs) p)) in
    let t := time_us (List.last (events_of inputs) e) in
    (0 < t <= 2 ^ 53 ->
     URLSearchParams.getAll "cursor" (searchParams url)
     = [pretty (t - 5000000)]) /\
    (t <= 0 -> URLSearchParams.getAll "cursor" (searchParams url) = []).
Proof.
  intros h e inputs p url t. subst url.
  rewrite subscribe_url_params.
  assert (Hc : cursor (stats (processEvents ((h, e) :: inputs) p)) = t).
  { rewrite cursor_processEvents. unfold events_of. simpl List.map.
    rewrite last_cons_shift. apply last_map_default. }
  rewrite Hc. split; intros Ht.
  - rewrite (buffered_cursor_exact t Ht).
    destruct Ht as [Ht _]. apply Z.ltb_lt in Ht. now rewrite Ht.
  - assert ((0 <? t) = false) as -> by (apply Z.ltb_ge; lia). reflexivity.
Qed.

Lemma reconnect_resumes_five_seconds_before_the_last_event_witness :
  0 < time_us (List.last (events_of (List.tl replay))
                 (commit_event 9000000 "work.doing.status")) <= 2 ^ 53 /\
  URLSearchParams.getAll "cursor"
    (searchParams (subscribe_url
                     (stats (processEvents replay (new_processor epoch)))))
  = ["-1000000"].
Proof.
  assert (H : 0 < time_us (List.last (events_of (List.tl replay))
                             (commit_event 9000000 "work.doing.status"))
              <= 2 ^ 53)
    by (simpl; lia).
  split; [exact H|].
  exact (proj1 (reconnect_resumes_five_seconds_before_the_last_event
                  host_ok (commit_event 9000000 "work.doing.status")
                  (List.tl replay) (new_processor epoch)) H).
Defined.

(** ** The queue consumer over a batch *)

Lemma filter_complement_length {A} (f g : A -> bool) (l : list A) :
  List.Forall (fun x => f x = negb (g x)) l ->
  (length (List.filter f l) + length (List.filter g l) = length l)%nat.
Proof.
  induction 1 as [|x l Hx _ IH]; [reflexivity|]. simpl.
  rewrite Hx. destruct (g x); simpl; lia.
Qed.

(** X17: [queue] settles every message of a batch exactly once and touches
    nothing else: the batch comes back with the same bodies in the same
    order, each message either acknowledged or marked for retry but not
    both, so that the acknowledged and the retried messages together are
    the whole batch; an empty batch makes no request. *)
Theorem queue_settles_each_message_once :
  forall (JSON_stringify : JetstreamEvent -> string)
         (fetch : nat -> Request -> FetchResult)
         (bodies : list QueueMessage),
    let out := queue JSON_stringify fetch (Message.delivered <$> bodies) in
    Message.body <$> out = bodies /\
    List.Forall (fun m => Message.acked m = negb (Message.retried m)) out /\
    (length (List.filter Message.acked out)
     + length (List.filter Message.retried out) = length bodies)%nat /\
    queue JSON_stringify fetch [] = [].
Proof.
  intros JSON_stringify fetch bodies out.
  assert (Hat : forall i,
             out !! i
             = (fun b => fst (deliver JSON_stringify (fetch i)
                                (Message.delivered b))) <$> bodies !! i).
  { intros i. subst out. unfold queue.
    rewrite list_lookup_imap, list_lookup_fmap.
    destruct (bodies !! i); reflexivity. }
  assert (Hbodies : Message.body <$> out = bodies).
  { apply list_eq. intros i. rewrite list_lookup_fmap, Hat.
    destruct (bodies !! i) as [b|]; simpl; [|reflexivity].
    now rewrite (proj1 (deliver_disposition JSON_stringify (fetch i) b)). }
  assert (Hall : List.Forall
                   (fun m => Message.acked m = negb (Message.retried m)) out).
  { apply List.Forall_forall. intros m Hm.
    apply list_elem_of_In, list_elem_of_lookup in Hm as [i Hi].
    rewrite Hat in Hi. destruct (bodies !! i) as [b|]; [|discriminate].
    injection Hi as <-.
    destruct (deliver_disposition JSON_stringify (fetch i) b)
      as (_ & -> & ->).
    now rewrite negb_involutive. }
  split; [exact Hbodies|]. split; [exact Hall|]. split; [|reflexivity].
  rewrite (filter_complement_length _ _ _ Hall).
  apply (f_equal length) in Hbodies. now rewrite length_fmap in Hbodies.
Qed.

(** ** The routes *)

(** X18: Every request is answered with status 200, and the handler changes
    the object only where the route says so: the stats change on
    [POST /reset] alone, the connection on [POST /reconnect] alone, the
    store on [/stats], [/stats/html] and [POST /reset] alone; the queue
    never does. *)
Theorem fetch_answers_200_and_writes_only_on_its_routes :
  forall (a : Router.Answers) (request : Router.Request) (d : DurableObject),
    let d' := fst (Router.fetch a request d) in
    let response := snd (Router.fetch a request d) in
    Router.status response = 200 /\
    JETSTREAM_QUEUE (processor d') = JETSTREAM_QUEUE (processor d) /\
    (stats (processor d') = stats (processor d) \/
     Router.pathname request = "/reset" /\ Router.method request = "POST") /\
    (connection d' = connection d \/
     Router.pathname request = "/reconnect" /\
     Router.method request = "POST") /\
    (storage (processor d') = storage (processor d) \/
     Router.pathname request = "/stats" \/
     Router.pathname request = "/stats/html" \/
     Router.pathname request = "/reset" /\ Router.method request = "POST").
Proof.
  intros a request d d' response. subst d' response. unfold Router.fetch.
  destruct (String.eqb_spec (Router.pathname request) "/stats") as [H1|_].
  { simpl. repeat split; auto. }
  destruct (String.eqb_spec (Router.pathname request) "/stats/html") as [H2|_].
  { simpl. repeat split; auto. }
  destruct (String.eqb_spec (Router.pathname request) "/status") as [H3|_].
  { destruct (Connection.getConnectionStatus _). simpl. repeat split; auto. }
  destruct (String.eqb_spec (Router.pathname request) "/reset") as [H4|_];
    destruct (String.eqb_spec (Router.method request) "POST") as [Hm|_];
    simpl.
  1: { repeat split; auto. }
  all: destruct (String.eqb_spec (Router.pathname request) "/reconnect")
         as [H5|_]; simpl.
  all: try (destruct (String.eqb_spec (Router.pathname request) "/health");
            simpl; repeat split; auto; fail).
  all: repeat split; auto.
Qed.

(** X19: The two routes that change the object answer only to POST: with any
    other method, [/reset] and [/reconnect] fall through to the default
    route, which leaves the object as it is and answers 200 with the
    description of the endpoints, as does every path that is no route. *)
Theorem fetch_falls_through_to_the_description :
  forall (a : Router.Answers) (request : Router.Request) (d : DurableObject),
    (Router.method request <> "POST" /\
     (Router.pathname request = "/reset" \/
      Router.pathname request = "/reconnect")) \/
    ~ List.In (Router.pathname request)
        ["/stats"; "/stats/html"; "/status"; "/reset"; "/reconnect";
         "/health"] ->
    Router.fetch a request d = (d, Router.json Router.info_json).
Proof.
  intros a request d H. unfold Router.fetch.
  destruct (String.eqb_spec (Router.pathname request) "/stats") as [H1|_].
  { exfalso. rewrite H1 in H. simpl in H.
    destruct H as [[_ [H|H]]|H]; try discriminate. tauto. }
  destruct (String.eqb_spec (Router.pathname request) "/stats/html") as [H2|_].
  { exfalso. rewrite H2 in H. simpl in H.
    destruct H as [[_ [H|H]]|H]; try discriminate. tauto. }
  destruct (String.eqb_spec (Router.pathname request) "/status") as [H3|_].
  { exfalso. rewrite H3 in H. simpl in H.
    destruct H as [[_ [H|H]]|H]; try discriminate. tauto. }
  destruct (String.eqb_spec (Router.method request) "POST") as [Hm|Hm].
  - destruct H as [[Hn _]|H]; [contradiction|].
    destruct (String.eqb_spec (Router.pathname request) "/reset") as [H4|_].
    { exfalso. rewrite H4 in H. simpl in H. tauto. }
    destruct (String.eqb_spec (Router.pathname request) "/reconnect")
      as [H5|_].
    { exfalso. rewrite H5 in H. simpl in H. tauto. }
    destruct (String.eqb_spec (Router.pathname request) "/health") as [H6|_].
    { exfalso. rewrite H6 in H. simpl in H. tauto. }
    reflexivity.
  - rewrite !andb_false_r.
    destruct (String.eqb_spec (Router.pathname request) "/health") as [H6|_].
    { exfalso. rewrite H6 in H. simpl in H.
      destruct H as [[_ [H|H]]|H]; try discriminate. tauto. }
    reflexivity.
Qed.

Lemma fetch_falls_through_to_the_description_witness :
  let request := {| Router.pathname := "/reset"; Router.method := "GET" |} in
  let a := {| Router.now := epoch; Router.throws := false;
              Router.random := 0%R |} in
  let d := start epoch false 0%R (Some (stats_with_cursor 7000000)) [] in
  (Router.method request <> "POST" /\
   (Router.pathname request = "/reset" \/
    Router.pathname request = "/reconnect")) /\
  cursor (stats (processor (fst (Router.fetch a request d)))) = 7000000.
Proof.
  intros request a d.
  assert (H : Router.method request <> "POST" /\
              (Router.pathname request = "/reset" \/
               Router.pathname request = "/reconnect")).
  { split; [discriminate|]. left. reflexivity. }
  split; [exact H|].
  rewrite (fetch_falls_through_to_the_description a request d (or_introl H)).
  reflexivity.
Defined.
